(** * lnwire.AcceptChannel: wire codec of the accept_channel message

    A shallow embedding of [lnwire/accept_channel.go]: the message record,
    [Encode], [Decode], [packShutdownScript] and [parseShutdownScript],
    together with the wire primitives and the TLV stream codec they call. *)

From Stdlib Require Import ZArith List Lia Bool.
From Stdlib Require Import Strings.Byte.
From stdpp Require Import base option list gmap.
Import ListNotations.

Local Open Scope Z_scope.

(** ** Bytes and big-endian integers *)

(** The numeric value of a byte, in [0, 256). *)
Definition b2z (b : byte) : Z := Z.of_N (Byte.to_N b).

(** The byte holding [z mod 256] (Go's [byte(z)] conversion). *)
Definition z2b (z : Z) : byte :=
  match Byte.of_N (Z.to_N (z mod 256)) with
  | Some b => b
  | None => x00
  end.

(** [binary.BigEndian.PutUintN]: the [n] low-order bytes of [z], most
    significant first; bits above [8 * n] are dropped, as in a conversion
    to the [n]-byte unsigned type. *)
Fixpoint be_bytes (n : nat) (z : Z) : list byte :=
  match n with
  | O => []
  | S k => z2b (z / 2 ^ (8 * Z.of_nat k)) :: be_bytes k z
  end.

(** [binary.BigEndian.UintN]: the unsigned value of a big-endian byte string. *)
Definition be_value (bs : list byte) : Z :=
  fold_left (fun acc b => acc * 256 + b2z b) bs 0.

(** Reinterpretation of a [uint64] as an [int64] (Go's [int64(u)]). *)
Definition to_int64 (u : Z) : Z :=
  if u <? 2 ^ 63 then u else u - 2 ^ 64.

(** ** Go byte slices

    A slice is either [nil] ([None]) or a non-nil slice with its contents
    ([Some l], possibly of length zero): the code returns both and
    [parseShutdownScript] tells them apart. *)
Definition slice : Type := option (list byte).

Definition nil_slice : slice := None.

(** [len(s)] *)
Definition len (s : slice) : nat :=
  match s with
  | None => O
  | Some l => length l
  end.

(** The bytes a slice ranges over ([nil] ranges over none). *)
Definition contents (s : slice) : list byte :=
  match s with
  | None => []
  | Some l => l
  end.

(** [append(s, t...)]: appending nothing to [nil] stays [nil]. *)
Definition append (s t : slice) : slice :=
  match s, contents t with
  | None, [] => None
  | _, bs => Some (contents s ++ bs)
  end.

(** [s[n:]] for [n <= len(s)]; a non-nil slice stays non-nil.  Go panics
    when [n > len(s)]: the only slicing of this file is shown in bounds by
    [parseShutdownScript_slice_in_bounds] below. *)
Definition slice_from (s : slice) (n : nat) : slice :=
  match s with
  | None => None
  | Some l => Some (drop n l)
  end.

(** The non-nil slice over the same bytes: what a decoder that allocates
    its result makes of a slice. *)
Definition explicit (s : slice) : slice := Some (contents s).

(** ** Errors *)

Inductive error : Type :=
| EOF                          (* io.EOF *)
| ErrUnexpectedEOF             (* io.ErrUnexpectedEOF *)
| ErrNilPublicKey              (* WritePublicKey on a nil key *)
| MalformedPublicKey           (* the key parser rejected 33 bytes *)
| ErrVarIntNotCanonical        (* tlv: a varint not minimally encoded *)
| ErrStreamNotCanonical        (* tlv: type ids not strictly ascending *)
| ErrRecordTooLarge            (* tlv: a record above MaxRecordSize *)
| TlvPackFailure (cause : error)   (* "unable to pack upfront shutdown script as TLV record: %v" *)
| MissingShutdownScriptRecord. (* "no shutdown script in non-empty data blob" *)

Inductive result (A : Type) : Type :=
| Ok (a : A)
| Err (e : error).
Arguments Ok {A} a.
Arguments Err {A} e.

(** ** The TLV stream codec *)

(** Modelled from the spec: the varint of the TLV records ("type: varint,
    length: varint", section 6), whose encoder [tlv.WriteVarInt] is not
    among the sources.  It is the protocol's BigSize: one byte below 0xfd,
    otherwise a marker byte followed by 2, 4 or 8 big-endian bytes. *)
Definition WriteVarInt (n : Z) : list byte :=
  if n <? 0xfd then [z2b n]
  else if n <=? 0xffff then z2b 0xfd :: be_bytes 2 n
  else if n <=? 0xffffffff then z2b 0xfe :: be_bytes 4 n
  else z2b 0xff :: be_bytes 8 n.

(** Modelled from the spec: the matching varint decoder [tlv.ReadVarInt],
    not among the sources.  It returns the value and the unread bytes;
    [EOF] when no byte is left, [ErrUnexpectedEOF] when the integer is cut
    short, and it rejects an encoding longer than needed. *)
Definition ReadVarInt (r : list byte) : result (Z * list byte) :=
  match r with
  | [] => Err EOF
  | d :: r1 =>
    let wide (n : nat) (least : Z) :=
      if (length r1 <? n)%nat then Err ErrUnexpectedEOF
      else
        let rv := be_value (take n r1) in
        if rv <? least then Err ErrVarIntNotCanonical
        else Ok (rv, drop n r1) in
    if b2z d <? 0xfd then Ok (b2z d, r1)
    else if b2z d =? 0xfd then wide 2%nat 0xfd
    else if b2z d =? 0xfe then wide 4%nat 0x10000
    else wide 8%nat 0x100000000
  end.

(** Modelled from the spec: the record type id of the delivery address,
    the constant [DeliveryAddrType], not among the sources: "the address
    record's type id is the lowest defined for this message" (section 6). *)
Definition DeliveryAddrType : Z := 0.

(** Modelled from the spec: the soft limit [tlv.MaxRecordSize] on the
    payload of one record of a stream being decoded (the largest length a
    transport message can carry), not among the sources. *)
Definition MaxRecordSize : Z := 65535.

(** Modelled from the spec: a TLV record as the stream encoder sees it, a
    type id and the payload its encoder writes ([tlv.Record], not among the
    sources). *)
Record Record : Type := MakeRecord {
  rtype : Z;
  rvalue : list byte
}.

(** Modelled from the spec: [DeliveryAddress.NewRecord], not among the
    sources: the record of type [DeliveryAddrType] bound to the address,
    whose payload is the address bytes verbatim. *)
Definition NewRecord (addr : slice) : Record :=
  MakeRecord DeliveryAddrType (contents addr).

(** Modelled from the spec: "pack(typeId, payload): emits type id, a length
    prefix covering the payload, and the payload verbatim" (section 4.2). *)
Definition encode_record (rec : Record) : list byte :=
  WriteVarInt (rtype rec) ++ WriteVarInt (Z.of_nat (length (rvalue rec))) ++ rvalue rec.

(** Modelled from the spec: [tlv.Stream.Encode], the records one after the
    other. *)
Definition encode_stream (recs : list Record) : list byte :=
  flat_map encode_record recs.

(** The record sequences a decoder accepts from type id [min] on (section
    6: "type ids in strictly ascending order"): every type id is a uint64
    no less than [min] and above the one before it, and every payload is
    within [MaxRecordSize]. *)
Fixpoint canonical (min : Z) (recs : list Record) : Prop :=
  match recs with
  | [] => True
  | rec :: rest =>
    min <= rtype rec < 2 ^ 64 /\
    Z.of_nat (length (rvalue rec)) <= MaxRecordSize /\
    canonical (rtype rec + 1) rest
  end.

(** Modelled from the spec: [ExtraOpaqueData.PackRecords], not among the
    sources.  It stores the encoded stream in its receiver and returns an
    error; the result pairs the receiver's new value with that error.  An
    empty buffer yields the nil slice. *)
Definition PackRecords (records : list Record) : slice * option error :=
  match encode_stream records with
  | [] => (nil_slice, None)
  | bs => (Some bs, None)
  end.

(** Modelled from the spec: [tlv.TypeMap], the type ids met in a stream;
    a record the decoder knows maps to [None] (Go's nil value), any other
    to its raw payload. *)
Abbreviation TypeMap := (gmap Z (option (list byte))).

(** Modelled from the spec: the decoding loop of [tlv.Stream], not among
    the sources, for a stream that knows one record type [known] ("scans
    blob for a record whose type id matches", section 4.2; "type ids in
    strictly ascending order", section 6).  [min] is the least type id
    still acceptable, [dst] the variable the known record decodes into,
    [parsed] the types met so far.  The result is the final value of
    [dst], the type map (empty on error, as Go's nil map) and the error.
    Every turn consumes at least two bytes, so [fuel] above the length of
    [r] is never used up ([decode_fuel]). *)
Fixpoint decode (fuel : nat) (known : Z) (min : Z) (r : list byte)
    (dst : slice) (parsed : TypeMap) : slice * TypeMap * option error :=
  match fuel with
  | O => (dst, ∅, Some ErrUnexpectedEOF)
  | S fuel' =>
    match ReadVarInt r with
    | Err EOF => (dst, parsed, None)
    | Err e => (dst, ∅, Some e)
    | Ok (typ, r1) =>
      if typ <? min then (dst, ∅, Some ErrStreamNotCanonical)
      else
        match ReadVarInt r1 with
        | Err EOF => (dst, ∅, Some ErrUnexpectedEOF)
        | Err e => (dst, ∅, Some e)
        | Ok (length, r2) =>
          if MaxRecordSize <? length then (dst, ∅, Some ErrRecordTooLarge)
          else
            let l := Z.to_nat length in
            if typ =? known then
              (* the record's decoder: *dst = make([]byte, l); io.ReadFull *)
              if (List.length r2 <? l)%nat
              then (Some (r2 ++ replicate (l - List.length r2) x00), ∅,
                    Some ErrUnexpectedEOF)
              else decode fuel' known (typ + 1) (drop l r2)
                     (Some (take l r2)) (<[typ := None]> parsed)
            else
              (* an unknown record: its payload is kept in the type map *)
              if (List.length r2 <? l)%nat
              then (dst, ∅, Some ErrUnexpectedEOF)
              else decode fuel' known (typ + 1) (drop l r2)
                     dst (<[typ := Some (take l r2)]> parsed)
        end
    end
  end.

(** Modelled from the spec: [ExtraOpaqueData.ExtractRecords], not among the
    sources, called with the one record [NewRecord] of the variable [dst]:
    the whole blob is decoded as a TLV stream. *)
Definition ExtractRecords (e : slice) (dst : slice) : slice * TypeMap * option error :=
  decode (S (len e)) DeliveryAddrType 0 (contents e) dst ∅.

(** ** The shutdown-script extension (accept_channel.go, lines 233-289) *)

Definition ExtraOpaqueData : Type := slice.
Definition DeliveryAddress : Type := slice.

(** [packShutdownScript] takes an upfront shutdown script and an opaque data
    blob and concatenates them.  The results are Go's [(ExtraOpaqueData,
    error)]. *)
Definition packShutdownScript (addr : DeliveryAddress) (extraData : ExtraOpaqueData)
    : ExtraOpaqueData * option error :=
  (* var tlvRecords ExtraOpaqueData; err := tlvRecords.PackRecords(addr.NewRecord()) *)
  let '(tlvRecords, err) := PackRecords [NewRecord addr] in
  match err with
  | Some e => (nil_slice, Some (TlvPackFailure e))
  | None =>
    (* tlvRecords = append(tlvRecords, extraData...) *)
    let tlvRecords := append tlvRecords extraData in
    (tlvRecords, None)
  end.

(** [parseShutdownScript] reads and extracts the upfront shutdown script
    from the passed data blob.  The results are Go's [(DeliveryAddress,
    ExtraOpaqueData, error)]. *)
Definition parseShutdownScript (tlvRecords : ExtraOpaqueData)
    : DeliveryAddress * ExtraOpaqueData * option error :=
  if (len tlvRecords =? 0)%nat then (nil_slice, tlvRecords, None)
  else
    (* var addr DeliveryAddress *)
    let addr := nil_slice in
    let '(addr, tlvs, err) := ExtractRecords tlvRecords addr in
    match err with
    | Some e => (nil_slice, nil_slice, Some e)
    | None =>
      match tlvs !! DeliveryAddrType with
      | None => (nil_slice, nil_slice, Some MissingShutdownScriptRecord)
      | Some _ =>
        let addrLen := len addr in
        let tlvRecords := slice_from tlvRecords (addrLen + 2) in
        (addr, tlvRecords, None)
      end
    end.

(** ** Public keys

    The elliptic-curve library ([btcec]) is outside the repository; the
    codec uses it through two functions, [PublicKey.SerializeCompressed] and
    [ParsePubKey].  A nil [*btcec.PublicKey] is [None]. *)
Class KeyCodec : Type := {
  PublicKey : Type;
  SerializeCompressed : PublicKey -> list byte;
  ParsePubKey : list byte -> option PublicKey
}.

(** [btcec.PubKeyBytesLenCompressed] *)
Definition PubKeyBytesLenCompressed : nat := 33.

(** A key is a valid curve point for the codec when its compressed form is
    33 bytes that the library parses back to the same key. *)
Definition valid_key `{KeyCodec} (k : PublicKey) : Prop :=
  length (SerializeCompressed k) = PubKeyBytesLenCompressed /\
  ParsePubKey (SerializeCompressed k) = Some k.

Section AcceptChannel.
Context {KC : KeyCodec}.

(** ** The message (accept_channel.go, lines 16-108) *)
Record AcceptChannel : Type := {
  PendingChannelID : list byte;           (* [32]byte *)
  DustLimit : Z;                          (* btcutil.Amount, int64 *)
  MaxValueInFlight : Z;                   (* MilliSatoshi, uint64 *)
  ChannelReserve : Z;                     (* btcutil.Amount, int64 *)
  HtlcMinimum : Z;                        (* MilliSatoshi, uint64 *)
  MinAcceptDepth : Z;                     (* uint32 *)
  CsvDelay : Z;                           (* uint16 *)
  MaxAcceptedHTLCs : Z;                   (* uint16 *)
  FundingKey : option PublicKey;          (* *btcec.PublicKey *)
  RevocationPoint : option PublicKey;
  PaymentPoint : option PublicKey;
  DelayedPaymentPoint : option PublicKey;
  HtlcPoint : option PublicKey;
  FirstCommitmentPoint : option PublicKey;
  UpfrontShutdownScript : DeliveryAddress;
  ExtraData : ExtraOpaqueData
}.

(** The values Go's types of the scalar fields admit. *)
Definition well_typed (a : AcceptChannel) : Prop :=
  length (PendingChannelID a) = 32%nat /\
  - 2 ^ 63 <= DustLimit a < 2 ^ 63 /\
  0 <= MaxValueInFlight a < 2 ^ 64 /\
  - 2 ^ 63 <= ChannelReserve a < 2 ^ 63 /\
  0 <= HtlcMinimum a < 2 ^ 64 /\
  0 <= MinAcceptDepth a < 2 ^ 32 /\
  0 <= CsvDelay a < 2 ^ 16 /\
  0 <= MaxAcceptedHTLCs a < 2 ^ 16.

(** Assignments through a pointer to a field of the receiver. *)
Definition set_PendingChannelID (v : list byte) (a : AcceptChannel) : AcceptChannel :=
  {| PendingChannelID := v; DustLimit := DustLimit a;
     MaxValueInFlight := MaxValueInFlight a; ChannelReserve := ChannelReserve a;
     HtlcMinimum := HtlcMinimum a; MinAcceptDepth := MinAcceptDepth a;
     CsvDelay := CsvDelay a; MaxAcceptedHTLCs := MaxAcceptedHTLCs a;
     FundingKey := FundingKey a; RevocationPoint := RevocationPoint a;
     PaymentPoint := PaymentPoint a; DelayedPaymentPoint := DelayedPaymentPoint a;
     HtlcPoint := HtlcPoint a; FirstCommitmentPoint := FirstCommitmentPoint a;
     UpfrontShutdownScript := UpfrontShutdownScript a; ExtraData := ExtraData a |}.

Definition set_DustLimit (v : Z) (a : AcceptChannel) : AcceptChannel :=
  {| PendingChannelID := PendingChannelID a; DustLimit := v;
     MaxValueInFlight := MaxValueInFlight a; ChannelReserve := ChannelReserve a;
     HtlcMinimum := HtlcMinimum a; MinAcceptDepth := MinAcceptDepth a;
     CsvDelay := CsvDelay a; MaxAcceptedHTLCs := MaxAcceptedHTLCs a;
     FundingKey := FundingKey a; RevocationPoint := RevocationPoint a;
     PaymentPoint := PaymentPoint a; DelayedPaymentPoint := DelayedPaymentPoint a;
     HtlcPoint := HtlcPoint a; FirstCommitmentPoint := FirstCommitmentPoint a;
     UpfrontShutdownScript := UpfrontShutdownScript a; ExtraData := ExtraData a |}.

Definition set_MaxValueInFlight (v : Z) (a : AcceptChannel) : AcceptChannel :=
  {| PendingChannelID := PendingChannelID a; DustLimit := DustLimit a;
     MaxValueInFlight := v; ChannelReserve := ChannelReserve a;
     HtlcMinimum := HtlcMinimum a; MinAcceptDepth := MinAcceptDepth a;
     CsvDelay := CsvDelay a; MaxAcceptedHTLCs := MaxAcceptedHTLCs a;
     FundingKey := FundingKey a; RevocationPoint := RevocationPoint a;
     PaymentPoint := PaymentPoint a; DelayedPaymentPoint := DelayedPaymentPoint a;
     HtlcPoint := HtlcPoint a; FirstCommitmentPoint := FirstCommitmentPoint a;
     UpfrontShutdownScript := UpfrontShutdownScript a; ExtraData := ExtraData a |}.

Definition set_ChannelReserve (v : Z) (a : AcceptChannel) : AcceptChannel :=
  {| PendingChannelID := PendingChannelID a; DustLimit := DustLimit a;
     MaxValueInFlight := MaxValueInFlight a; ChannelReserve := v;
     HtlcMinimum := HtlcMinimum a; MinAcceptDepth := MinAcceptDepth a;
     CsvDelay := CsvDelay a; MaxAcceptedHTLCs := MaxAcceptedHTLCs a;
     FundingKey := FundingKey a; RevocationPoint := RevocationPoint a;
     PaymentPoint := PaymentPoint a; DelayedPaymentPoint := DelayedPaymentPoint a;
     HtlcPoint := HtlcPoint a; FirstCommitmentPoint := FirstCommitmentPoint a;
     UpfrontShutdownScript := UpfrontShutdownScript a; ExtraData := ExtraData a |}.

Definition set_HtlcMinimum (v : Z) (a : AcceptChannel) : AcceptChannel :=
  {| PendingChannelID := PendingChannelID a; DustLimit := DustLimit a;
     MaxValueInFlight := MaxValueInFlight a; ChannelReserve := ChannelReserve a;
     HtlcMinimum := v; MinAcceptDepth := MinAcceptDepth a;
     CsvDelay := CsvDelay a; MaxAcceptedHTLCs := MaxAcceptedHTLCs a;
     FundingKey := FundingKey a; RevocationPoint := RevocationPoint a;
     PaymentPoint := PaymentPoint a; DelayedPaymentPoint := DelayedPaymentPoint a;
     HtlcPoint := HtlcPoint a; FirstCommitmentPoint := FirstCommitmentPoint a;
     UpfrontShutdownScript := UpfrontShutdownScript a; ExtraData := ExtraData a |}.

Definition set_MinAcceptDepth (v : Z) (a : AcceptChannel) : AcceptChannel :=
  {| PendingChannelID := PendingChannelID a; DustLimit := DustLimit a;
     MaxValueInFlight := MaxValueInFlight a; ChannelReserve := ChannelReserve a;
     HtlcMinimum := HtlcMinimum a; MinAcceptDepth := v;
     CsvDelay := CsvDelay a; MaxAcceptedHTLCs := MaxAcceptedHTLCs a;
     FundingKey := FundingKey a; RevocationPoint := RevocationPoint a;
     PaymentPoint := PaymentPoint a; DelayedPaymentPoint := DelayedPaymentPoint a;
     HtlcPoint := HtlcPoint a; FirstCommitmentPoint := FirstCommitmentPoint a;
     UpfrontShutdownScript := UpfrontShutdownScript a; ExtraData := ExtraData a |}.

Definition set_CsvDelay (v : Z) (a : AcceptChannel) : AcceptChannel :=
  {| PendingChannelID := PendingChannelID a; DustLimit := DustLimit a;
     MaxValueInFlight := MaxValueInFlight a; ChannelReserve := ChannelReserve a;
     HtlcMinimum := HtlcMinimum a; MinAcceptDepth := MinAcceptDepth a;
     CsvDelay := v; MaxAcceptedHTLCs := MaxAcceptedHTLCs a;
     FundingKey := FundingKey a; RevocationPoint := RevocationPoint a;
     PaymentPoint := PaymentPoint a; DelayedPaymentPoint := DelayedPaymentPoint a;
     HtlcPoint := HtlcPoint a; FirstCommitmentPoint := FirstCommitmentPoint a;
     UpfrontShutdownScript := UpfrontShutdownScript a; ExtraData := ExtraData a |}.

Definition set_MaxAcceptedHTLCs (v : Z) (a : AcceptChannel) : AcceptChannel :=
  {| PendingChannelID := PendingChannelID a; DustLimit := DustLimit a;
     MaxValueInFlight := MaxValueInFlight a; ChannelReserve := ChannelReserve a;
     HtlcMinimum := HtlcMinimum a; MinAcceptDepth := MinAcceptDepth a;
     CsvDelay := CsvDelay a; MaxAcceptedHTLCs := v;
     FundingKey := FundingKey a; RevocationPoint := RevocationPoint a;
     PaymentPoint := PaymentPoint a; DelayedPaymentPoint := DelayedPaymentPoint a;
     HtlcPoint := HtlcPoint a; FirstCommitmentPoint := FirstCommitmentPoint a;
     UpfrontShutdownScript := UpfrontShutdownScript a; ExtraData := ExtraData a |}.

Definition set_FundingKey (v : option PublicKey) (a : AcceptChannel) : AcceptChannel :=
  {| PendingChannelID := PendingChannelID a; DustLimit := DustLimit a;
     MaxValueInFlight := MaxValueInFlight a; ChannelReserve := ChannelReserve a;
     HtlcMinimum := HtlcMinimum a; MinAcceptDepth := MinAcceptDepth a;
     CsvDelay := CsvDelay a; MaxAcceptedHTLCs := MaxAcceptedHTLCs a;
     FundingKey := v; RevocationPoint := RevocationPoint a;
     PaymentPoint := PaymentPoint a; DelayedPaymentPoint := DelayedPaymentPoint a;
     HtlcPoint := HtlcPoint a; FirstCommitmentPoint := FirstCommitmentPoint a;
     UpfrontShutdownScript := UpfrontShutdownScript a; ExtraData := ExtraData a |}.

Definition set_RevocationPoint (v : option PublicKey) (a : AcceptChannel) : AcceptChannel :=
  {| PendingChannelID := PendingChannelID a; DustLimit := DustLimit a;
     MaxValueInFlight := MaxValueInFlight a; ChannelReserve := ChannelReserve a;
     HtlcMinimum := HtlcMinimum a; MinAcceptDepth := MinAcceptDepth a;
     CsvDelay := CsvDelay a; MaxAcceptedHTLCs := MaxAcceptedHTLCs a;
     FundingKey := FundingKey a; RevocationPoint := v;
     PaymentPoint := PaymentPoint a; DelayedPaymentPoint := DelayedPaymentPoint a;
     HtlcPoint := HtlcPoint a; FirstCommitmentPoint := FirstCommitmentPoint a;
     UpfrontShutdownScript := UpfrontShutdownScript a; ExtraData := ExtraData a |}.

Definition set_PaymentPoint (v : option PublicKey) (a : AcceptChannel) : AcceptChannel :=
  {| PendingChannelID := PendingChannelID a; DustLimit := DustLimit a;
     MaxValueInFlight := MaxValueInFlight a; ChannelReserve := ChannelReserve a;
     HtlcMinimum := HtlcMinimum a; MinAcceptDepth := MinAcceptDepth a;
     CsvDelay := CsvDelay a; MaxAcceptedHTLCs := MaxAcceptedHTLCs a;
     FundingKey := FundingKey a; RevocationPoint := RevocationPoint a;
     PaymentPoint := v; DelayedPaymentPoint := DelayedPaymentPoint a;
     HtlcPoint := HtlcPoint a; FirstCommitmentPoint := FirstCommitmentPoint a;
     UpfrontShutdownScript := UpfrontShutdownScript a; ExtraData := ExtraData a |}.

Definition set_DelayedPaymentPoint (v : option PublicKey) (a : AcceptChannel) : AcceptChannel :=
  {| PendingChannelID := PendingChannelID a; DustLimit := DustLimit a;
     MaxValueInFlight := MaxValueInFlight a; ChannelReserve := ChannelReserve a;
     HtlcMinimum := HtlcMinimum a; MinAcceptDepth := MinAcceptDepth a;
     CsvDelay := CsvDelay a; MaxAcceptedHTLCs := MaxAcceptedHTLCs a;
     FundingKey := FundingKey a; RevocationPoint := RevocationPoint a;
     PaymentPoint := PaymentPoint a; DelayedPaymentPoint := v;
     HtlcPoint := HtlcPoint a; FirstCommitmentPoint := FirstCommitmentPoint a;
     UpfrontShutdownScript := UpfrontShutdownScript a; ExtraData := ExtraData a |}.

Definition set_HtlcPoint (v : option PublicKey) (a : AcceptChannel) : AcceptChannel :=
  {| PendingChannelID := PendingChannelID a; DustLimit := DustLimit a;
     MaxValueInFlight := MaxValueInFlight a; ChannelReserve := ChannelReserve a;
     HtlcMinimum := HtlcMinimum a; MinAcceptDepth := MinAcceptDepth a;
     CsvDelay := CsvDelay a; MaxAcceptedHTLCs := MaxAcceptedHTLCs a;
     FundingKey := FundingKey a; RevocationPoint := RevocationPoint a;
     PaymentPoint := PaymentPoint a; DelayedPaymentPoint := DelayedPaymentPoint a;
     HtlcPoint := v; FirstCommitmentPoint := FirstCommitmentPoint a;
     UpfrontShutdownScript := UpfrontShutdownScript a; ExtraData := ExtraData a |}.

Definition set_FirstCommitmentPoint (v : option PublicKey) (a : AcceptChannel) : AcceptChannel :=
  {| PendingChannelID := PendingChannelID a; DustLimit := DustLimit a;
     MaxValueInFlight := MaxValueInFlight a; ChannelReserve := ChannelReserve a;
     HtlcMinimum := HtlcMinimum a; MinAcceptDepth := MinAcceptDepth a;
     CsvDelay := CsvDelay a; MaxAcceptedHTLCs := MaxAcceptedHTLCs a;
     FundingKey := FundingKey a; RevocationPoint := RevocationPoint a;
     PaymentPoint := PaymentPoint a; DelayedPaymentPoint := DelayedPaymentPoint a;
     HtlcPoint := HtlcPoint a; FirstCommitmentPoint := v;
     UpfrontShutdownScript := UpfrontShutdownScript a; ExtraData := ExtraData a |}.

Definition set_UpfrontShutdownScript (v : DeliveryAddress) (a : AcceptChannel) : AcceptChannel :=
  {| PendingChannelID := PendingChannelID a; DustLimit := DustLimit a;
     MaxValueInFlight := MaxValueInFlight a; ChannelReserve := ChannelReserve a;
     HtlcMinimum := HtlcMinimum a; MinAcceptDepth := MinAcceptDepth a;
     CsvDelay := CsvDelay a; MaxAcceptedHTLCs := MaxAcceptedHTLCs a;
     FundingKey := FundingKey a; RevocationPoint := RevocationPoint a;
     PaymentPoint := PaymentPoint a; DelayedPaymentPoint := DelayedPaymentPoint a;
     HtlcPoint := HtlcPoint a; FirstCommitmentPoint := FirstCommitmentPoint a;
     UpfrontShutdownScript := v; ExtraData := ExtraData a |}.

Definition set_ExtraData (v : ExtraOpaqueData) (a : AcceptChannel) : AcceptChannel :=
  {| PendingChannelID := PendingChannelID a; DustLimit := DustLimit a;
     MaxValueInFlight := MaxValueInFlight a; ChannelReserve := ChannelReserve a;
     HtlcMinimum := HtlcMinimum a; MinAcceptDepth := MinAcceptDepth a;
     CsvDelay := CsvDelay a; MaxAcceptedHTLCs := MaxAcceptedHTLCs a;
     FundingKey := FundingKey a; RevocationPoint := RevocationPoint a;
     PaymentPoint := PaymentPoint a; DelayedPaymentPoint := DelayedPaymentPoint a;
     HtlcPoint := HtlcPoint a; FirstCommitmentPoint := FirstCommitmentPoint a;
     UpfrontShutdownScript := UpfrontShutdownScript a; ExtraData := v |}.

(** The compressed form of a key field; a nil key has none. *)
Definition key_bytes (pub : option PublicKey) : list byte :=
  match pub with
  | None => []
  | Some k => SerializeCompressed k
  end.

(** The fixed-field section of the wire layout (section 6) for the values
    a message holds: 32 + 8 + 8 + 8 + 8 + 4 + 2 + 2 bytes, then the six
    keys. *)
Definition fixed_fields (a : AcceptChannel) : list byte :=
  PendingChannelID a ++
  be_bytes 8 (DustLimit a) ++
  be_bytes 8 (MaxValueInFlight a) ++
  be_bytes 8 (ChannelReserve a) ++
  be_bytes 8 (HtlcMinimum a) ++
  be_bytes 4 (MinAcceptDepth a) ++
  be_bytes 2 (CsvDelay a) ++
  be_bytes 2 (MaxAcceptedHTLCs a) ++
  key_bytes (FundingKey a) ++
  key_bytes (RevocationPoint a) ++
  key_bytes (PaymentPoint a) ++
  key_bytes (DelayedPaymentPoint a) ++
  key_bytes (HtlcPoint a) ++
  key_bytes (FirstCommitmentPoint a).

(** A key field that is set to a valid curve point. *)
Definition valid_key_field (pub : option PublicKey) : Prop :=
  match pub with
  | None => False
  | Some k => valid_key k
  end.

(** All six public keys of the message are valid curve points. *)
Definition valid_keys (a : AcceptChannel) : Prop :=
  valid_key_field (FundingKey a) /\
  valid_key_field (RevocationPoint a) /\
  valid_key_field (PaymentPoint a) /\
  valid_key_field (DelayedPaymentPoint a) /\
  valid_key_field (HtlcPoint a) /\
  valid_key_field (FirstCommitmentPoint a).

(** ** Receiver and stream as explicit state

    [Encode] and [Decode] are methods on [*AcceptChannel] that take a
    [*bytes.Buffer] or an [io.Reader] and return an [error].  A computation
    threads the receiver and the stream (the bytes written so far, or the
    bytes not yet read) and yields a value or an error; the state it leaves
    is kept on the error path too. *)
Record state : Type := State {
  recv : AcceptChannel;
  stream : list byte
}.

Definition M (A : Type) : Type := state -> result A * state.

#[global] Instance M_ret : MRet M := fun A a s => (Ok a, s).

#[global] Instance M_bind : MBind M := fun A B f m s =>
  match m s with
  | (Ok a, s') => f a s'
  | (Err e, s') => (Err e, s')
  end.

(** [return err] *)
Definition fail {A : Type} (e : error) : M A := fun s => (Err e, s).

(** Reading a field of the receiver: [a.f]. *)
Definition field {A : Type} (f : AcceptChannel -> A) : M A :=
  fun s => (Ok (f (recv s)), s).

(** Assigning through a pointer into the receiver. *)
Definition store (upd : AcceptChannel -> AcceptChannel) : M unit :=
  fun s => (Ok tt, State (upd (recv s)) (stream s)).

(** ** Writers *)

(** Modelled from the spec: [WriteBytes], not among the sources: the slice
    is appended to the buffer as it is.  [Encode] calls it for the
    32-byte [PendingChannelID], which takes exactly 32 bytes on the wire
    (section 6), and for the TLV blob alike. *)
Definition WriteBytes (b : list byte) : M unit :=
  fun s => (Ok tt, State (recv s) (stream s ++ b)).

(** Modelled from the spec: the fixed-width big-endian integer writers
    (section 4.1), not among the sources. *)
Definition WriteUint16 (n : Z) : M unit := WriteBytes (be_bytes 2 n).
Definition WriteUint32 (n : Z) : M unit := WriteBytes (be_bytes 4 n).
Definition WriteUint64 (n : Z) : M unit := WriteBytes (be_bytes 8 n).

(** Modelled from the spec: 8 bytes, the amount converted to [uint64]. *)
Definition WriteSatoshi (a : Z) : M unit := WriteUint64 a.
Definition WriteMilliSatoshi (a : Z) : M unit := WriteUint64 a.

(** Modelled from the spec: [WritePublicKey], not among the sources: the
    compressed form of the key; a nil key is an error. *)
Definition WritePublicKey (pub : option PublicKey) : M unit :=
  match pub with
  | None => fail ErrNilPublicKey
  | Some k => WriteBytes (SerializeCompressed k)
  end.

(** ** Readers *)

(** [io.ReadFull]: exactly [n] bytes, [EOF] when none is left and
    [ErrUnexpectedEOF] when fewer than [n] are. *)
Definition ReadFull (n : nat) : M (list byte) := fun s =>
  if (n <=? length (stream s))%nat
  then (Ok (take n (stream s)), State (recv s) (drop n (stream s)))
  else (Err (match stream s with [] => EOF | _ => ErrUnexpectedEOF end),
        State (recv s) []).

(** The pointers [ReadElements] is given, by the type [ReadElement]
    switches on; each carries the assignment to its target. *)
Inductive element : Type :=
| BytesSlice (n : nat) (set : list byte -> AcceptChannel -> AcceptChannel)
| AmountPtr (set : Z -> AcceptChannel -> AcceptChannel)
| MilliSatoshiPtr (set : Z -> AcceptChannel -> AcceptChannel)
| Uint32Ptr (set : Z -> AcceptChannel -> AcceptChannel)
| Uint16Ptr (set : Z -> AcceptChannel -> AcceptChannel)
| PublicKeyPtr (set : option PublicKey -> AcceptChannel -> AcceptChannel).

(** Modelled from the spec: [ReadElement], not among the sources
    (section 4.1): a fixed-width read, then the assignment; a failed read
    leaves the target as it was.  33 bytes that the key parser rejects are
    a [MalformedPublicKey]. *)
Definition ReadElement (e : element) : M unit :=
  match e with
  | BytesSlice n set => b ← ReadFull n; store (set b)
  | AmountPtr set => b ← ReadFull 8; store (set (to_int64 (be_value b)))
  | MilliSatoshiPtr set => b ← ReadFull 8; store (set (be_value b))
  | Uint32Ptr set => b ← ReadFull 4; store (set (be_value b))
  | Uint16Ptr set => b ← ReadFull 2; store (set (be_value b))
  | PublicKeyPtr set =>
    b ← ReadFull PubKeyBytesLenCompressed;
    match ParsePubKey b with
    | None => fail MalformedPublicKey
    | Some pubKey => store (set (Some pubKey))
    end
  end.

(** Modelled from the spec: [ReadElements], not among the sources: the
    elements in order, stopping at the first error. *)
Fixpoint ReadElements (elements : list element) : M unit :=
  match elements with
  | [] => mret tt
  | e :: rest => ReadElement e;; ReadElements rest
  end.

(** Modelled from the spec: [ReadElements(r, &tlvRecords)] for a local
    [ExtraOpaqueData], not among the sources: the bytes left in the
    message, as a non-nil slice.  The blob is what was "appended to this
    message" (the comment on [ExtraData]) and is written without a length
    of its own by [WriteBytes]. *)
Definition ReadExtraOpaqueData : M ExtraOpaqueData := fun s =>
  (Ok (Some (stream s)), State (recv s) []).

(** ** Encode (accept_channel.go, lines 119-186) *)
Definition Encode (pver : Z) : M unit :=
  addr ← field UpfrontShutdownScript;
  extraData ← field ExtraData;
  let '(tlvRecords, err) := packShutdownScript addr extraData in
  match err with
  | Some e => fail e
  | None =>
    (field PendingChannelID ≫= WriteBytes);;
    (field DustLimit ≫= WriteSatoshi);;
    (field MaxValueInFlight ≫= WriteMilliSatoshi);;
    (field ChannelReserve ≫= WriteSatoshi);;
    (field HtlcMinimum ≫= WriteMilliSatoshi);;
    (field MinAcceptDepth ≫= WriteUint32);;
    (field CsvDelay ≫= WriteUint16);;
    (field MaxAcceptedHTLCs ≫= WriteUint16);;
    (field FundingKey ≫= WritePublicKey);;
    (field RevocationPoint ≫= WritePublicKey);;
    (field PaymentPoint ≫= WritePublicKey);;
    (field DelayedPaymentPoint ≫= WritePublicKey);;
    (field HtlcPoint ≫= WritePublicKey);;
    (field FirstCommitmentPoint ≫= WritePublicKey);;
    WriteBytes (contents tlvRecords)
  end.

(** ** Decode (accept_channel.go, lines 193-231) *)
Definition Decode (pver : Z) : M unit :=
  (* Read all the mandatory fields in the accept message. *)
  ReadElements [
    BytesSlice 32 set_PendingChannelID;
    AmountPtr set_DustLimit;
    MilliSatoshiPtr set_MaxValueInFlight;
    AmountPtr set_ChannelReserve;
    MilliSatoshiPtr set_HtlcMinimum;
    Uint32Ptr set_MinAcceptDepth;
    Uint16Ptr set_CsvDelay;
    Uint16Ptr set_MaxAcceptedHTLCs;
    PublicKeyPtr set_FundingKey;
    PublicKeyPtr set_RevocationPoint;
    PublicKeyPtr set_PaymentPoint;
    PublicKeyPtr set_DelayedPaymentPoint;
    PublicKeyPtr set_HtlcPoint;
    PublicKeyPtr set_FirstCommitmentPoint
  ];;
  tlvRecords ← ReadExtraOpaqueData;
  (* a.UpfrontShutdownScript, a.ExtraData, err = parseShutdownScript(tlvRecords) *)
  let '(addr, extra, err) := parseShutdownScript tlvRecords in
  store (set_UpfrontShutdownScript addr);;
  store (set_ExtraData extra);;
  match err with
  | Some e => fail e
  | None => mret tt
  end.

(** ** Decode as a function of the input

    What [Decode] makes of its input when it succeeds, read off the byte
    offsets of the fixed fields: the message below and nothing else
    ([Decode_succeeds_iff]). *)

(** [n] bytes of the input from offset [off] on. *)
Definition chunk (off n : nat) (bs : list byte) : list byte := take n (drop off bs).

(** The length of the fixed-field section: 32 + 8 + 8 + 8 + 8 + 4 + 2 + 2
    bytes of scalars and six keys of 33 bytes. *)
Definition fixed_length : nat := 270.

Definition wire_message (bs : list byte) : AcceptChannel :=
  {| PendingChannelID := chunk 0 32 bs;
     DustLimit := to_int64 (be_value (chunk 32 8 bs));
     MaxValueInFlight := be_value (chunk 40 8 bs);
     ChannelReserve := to_int64 (be_value (chunk 48 8 bs));
     HtlcMinimum := be_value (chunk 56 8 bs);
     MinAcceptDepth := be_value (chunk 64 4 bs);
     CsvDelay := be_value (chunk 68 2 bs);
     MaxAcceptedHTLCs := be_value (chunk 70 2 bs);
     FundingKey := ParsePubKey (chunk 72 33 bs);
     RevocationPoint := ParsePubKey (chunk 105 33 bs);
     PaymentPoint := ParsePubKey (chunk 138 33 bs);
     DelayedPaymentPoint := ParsePubKey (chunk 171 33 bs);
     HtlcPoint := ParsePubKey (chunk 204 33 bs);
     FirstCommitmentPoint := ParsePubKey (chunk 237 33 bs);
     UpfrontShutdownScript :=
       fst (fst (parseShutdownScript (Some (drop fixed_length bs))));
     ExtraData :=
       snd (fst (parseShutdownScript (Some (drop fixed_length bs)))) |}.

(** The six key fields of the input. *)
Definition key_chunks (bs : list byte) : list (list byte) :=
  [chunk 72 33 bs; chunk 105 33 bs; chunk 138 33 bs;
   chunk 171 33 bs; chunk 204 33 bs; chunk 237 33 bs].

(** The bytes [ReadElement] takes for an element. *)
Definition wire_size (e : element) : nat :=
  match e with
  | BytesSlice n _ => n
  | AmountPtr _ => 8
  | MilliSatoshiPtr _ => 8
  | Uint32Ptr _ => 4
  | Uint16Ptr _ => 2
  | PublicKeyPtr _ => PubKeyBytesLenCompressed
  end.

(** A computation that only appends to the stream: on a buffer holding
    [w] it does what it does on the empty buffer, after [w], and leaves
    the receiver alone. *)
Definition appends {A : Type} (m : M A) : Prop :=
  forall (a : AcceptChannel) (w : list byte),
    m (State a w) = (fst (m (State a [])), State a (w ++ stream (snd (m (State a []))))).

(** The key parser accepts only the compressed form the serializer
    writes. *)
Definition canonical_keys : Prop :=
  forall (k : list byte) (pub : PublicKey),
    length k = PubKeyBytesLenCompressed ->
    ParsePubKey k = Some pub -> SerializeCompressed pub = k.

End AcceptChannel.

(** ** A key codec to run the codec on: compressed secp256k1 points

    The curve library is outside the repository.  This instance follows
    what [btcec] does for the 33-byte compressed form (a parity byte 02 or
    03, then the big-endian x coordinate; the y coordinate is recovered as
    a square root of [x^3 + 7] modulo the field prime) and serves the
    examples below; the theorems hold for every [KeyCodec]. *)
Module Secp256k1.

Definition P : Z := 2 ^ 256 - 2 ^ 32 - 977.

(** [b ^ e mod m] by squaring. *)
Fixpoint powmod (b : Z) (e : positive) (m : Z) : Z :=
  match e with
  | xH => b mod m
  | xO e' => let r := powmod b e' m in (r * r) mod m
  | xI e' => let r := powmod b e' m in (((r * r) mod m) * b) mod m
  end.

Record point : Type := Point { X : Z; Y : Z }.

Definition decompressPoint (x : Z) (ybit : bool) : option Z :=
  let x3 := (x * x * x + 7) mod P in
  let y := powmod x3 (Z.to_pos ((P + 1) / 4)) P in
  let y := if Bool.eqb ybit (Z.odd y) then y else (P - y) mod P in
  if negb ((y * y) mod P =? x3) then None
  else if negb (Bool.eqb ybit (Z.odd y)) then None
  else Some y.

Definition serialize (k : point) : list byte :=
  (if Z.odd (Y k) then x03 else x02) :: be_bytes 32 (X k).

Definition parse (pubKeyStr : list byte) : option point :=
  match pubKeyStr with
  | format :: xs =>
    if negb (length xs =? 32)%nat then None
    else if negb ((b2z format =? 2) || (b2z format =? 3)) then None
    else
      let x := be_value xs in
      match decompressPoint x (Z.odd (b2z format)) with
      | None => None
      | Some y => if P <=? x then None else Some (Point x y)
      end
  | [] => None
  end.

#[global] Instance codec : KeyCodec := {|
  PublicKey := point;
  SerializeCompressed := serialize;
  ParsePubKey := parse
|}.

(** The generator of the curve and its double. *)
Definition G : point :=
  Point 0x79BE667EF9DCBBAC55A06295CE870B07029BFCDB2DCE28D959F2815B16F81798
        0x483ADA7726A3C4655DA4FBFC0E1108A8FD17B448A68554199C47D08FFB10D4B8.

Definition G2 : point :=
  Point 0xC6047F9441ED7D6D3045406E95C07CD85C778E4B8CEF3CA7ABAC09B95C709EE5
        0x1AE168FEA63DC339A3C58419466CEAEEF7F632653266D0E1236431A950CFE52A.

End Secp256k1.

(** ** Example messages *)

(** The message of the spec's scenario (section 8), with the script and the
    extra data given. *)
Definition example_message (script : DeliveryAddress) (extra : ExtraOpaqueData)
    : @AcceptChannel Secp256k1.codec :=
  {| PendingChannelID := replicate 32 x00;
     DustLimit := 546;
     MaxValueInFlight := 1000000000;
     ChannelReserve := 9835;
     HtlcMinimum := 1;
     MinAcceptDepth := 3;
     CsvDelay := 144;
     MaxAcceptedHTLCs := 30;
     FundingKey := Some Secp256k1.G;
     RevocationPoint := Some Secp256k1.G2;
     PaymentPoint := Some Secp256k1.G;
     DelayedPaymentPoint := Some Secp256k1.G2;
     HtlcPoint := Some Secp256k1.G;
     FirstCommitmentPoint := Some Secp256k1.G2;
     UpfrontShutdownScript := script;
     ExtraData := extra |}.

(** A freshly allocated message, as the receive path hands to [Decode]. *)
Definition empty_message `{KeyCodec} : AcceptChannel :=
  {| PendingChannelID := replicate 32 x00;
     DustLimit := 0; MaxValueInFlight := 0; ChannelReserve := 0;
     HtlcMinimum := 0; MinAcceptDepth := 0; CsvDelay := 0;
     MaxAcceptedHTLCs := 0;
     FundingKey := None; RevocationPoint := None; PaymentPoint := None;
     DelayedPaymentPoint := None; HtlcPoint := None;
     FirstCommitmentPoint := None;
     UpfrontShutdownScript := nil_slice; ExtraData := nil_slice |}.

(** The bytes [Encode] leaves in an empty buffer. *)
Definition encoded `{KeyCodec} (m : AcceptChannel) : list byte :=
  stream (snd (Encode 0 (State m []))).

(** The message [Decode] leaves in a fresh receiver, with its result. *)
Definition decoded `{KeyCodec} (bs : list byte) : result unit * AcceptChannel :=
  let '(res, s) := Decode 0 (State empty_message bs) in (res, recv s).

(** The scenario message with an explicitly empty script and no extra
    records, and one with a 20-byte script and one unknown record. *)
Definition example_plain : @AcceptChannel Secp256k1.codec :=
  example_message (Some []) (Some []).

Definition example_full : @AcceptChannel Secp256k1.codec :=
  example_message (Some (x00 :: x14 :: replicate 20 xab)) (Some [x01; x01; xcc]).

(** An address payload of 253 bytes, the shortest whose length takes a
    three-byte varint; its last two bytes are marked. *)
Definition long_address : list byte := replicate 251 x00 ++ [xaa; xbb].

(** * Proofs *)

(** ** The definitions at work *)

Example WriteVarInt_small : WriteVarInt 34 = [x22].
Proof. reflexivity. Qed.

Example WriteVarInt_253 : WriteVarInt 253 = [xfd; x00; xfd].
Proof. reflexivity. Qed.

Example ReadVarInt_253 : ReadVarInt [xfd; x00; xfd; x07] = Ok (253, [x07]).
Proof. reflexivity. Qed.

Example pack_empty : packShutdownScript nil_slice nil_slice = (Some [x00; x00], None).
Proof. reflexivity. Qed.

Example parse_empty_record :
  parseShutdownScript (Some [x00; x00]) = (Some [], Some [], None).
Proof. vm_compute. reflexivity. Qed.

Example parse_with_tail :
  parseShutdownScript (Some [x00; x02; xaa; xbb; x01; x01; xcc])
  = (Some [xaa; xbb], Some [x01; x01; xcc], None).
Proof. vm_compute. reflexivity. Qed.

Example parse_missing :
  parseShutdownScript (Some [x01; x01; xcc])
  = (None, None, Some MissingShutdownScriptRecord).
Proof. vm_compute. reflexivity. Qed.

Example parse_truncated :
  parseShutdownScript (Some [x01; x05; xcc])
  = (None, None, Some ErrUnexpectedEOF).
Proof. vm_compute. reflexivity. Qed.

Example parse_descending :
  parseShutdownScript (Some [x01; x00; x00; x00])
  = (None, None, Some ErrStreamNotCanonical).
Proof. vm_compute. reflexivity. Qed.

(** ** Bytes and big-endian integers *)

Lemma b2z_range (b : byte) : 0 <= b2z b < 256.
Proof.
  unfold b2z. pose proof (Byte.to_N_bounded b). lia.
Qed.

Lemma b2z_z2b (z : Z) : b2z (z2b z) = z mod 256.
Proof.
  unfold b2z, z2b.
  pose proof (Z.mod_pos_bound z 256 ltac:(lia)) as Hr.
  destruct (Byte.of_N (Z.to_N (z mod 256))) as [b|] eqn:E.
  - apply Byte.to_of_N in E. rewrite E. lia.
  - apply Byte.of_N_None_iff in E. lia.
Qed.

Lemma z2b_b2z (b : byte) : z2b (b2z b) = b.
Proof.
  unfold z2b, b2z. pose proof (Byte.to_N_bounded b).
  rewrite Z.mod_small by lia. rewrite N2Z.id, Byte.of_to_N. reflexivity.
Qed.

Lemma be_bytes_length (n : nat) (z : Z) : length (be_bytes n z) = n.
Proof. induction n; simpl; congruence. Qed.

Lemma be_value_snoc (bs : list byte) (b : byte) :
  be_value (bs ++ [b]) = be_value bs * 256 + b2z b.
Proof. unfold be_value. rewrite fold_left_app. reflexivity. Qed.

Lemma fold_be_shift (bs : list byte) (acc : Z) :
  fold_left (fun a b => a * 256 + b2z b) bs acc
  = acc * 256 ^ Z.of_nat (length bs) + be_value bs.
Proof.
  unfold be_value. revert acc. induction bs as [|b bs IH]; intros acc.
  - simpl. lia.
  - cbn [fold_left length]. rewrite IH, (IH (0 * 256 + b2z b)).
    rewrite Nat2Z.inj_succ, Z.pow_succ_r by lia. lia.
Qed.

Lemma be_value_cons (b : byte) (bs : list byte) :
  be_value (b :: bs) = b2z b * 256 ^ Z.of_nat (length bs) + be_value bs.
Proof. unfold be_value at 1. cbn [fold_left]. rewrite fold_be_shift. lia. Qed.

Lemma be_value_range (bs : list byte) : 0 <= be_value bs < 256 ^ Z.of_nat (length bs).
Proof.
  induction bs as [|b bs IH].
  - cbn. lia.
  - rewrite be_value_cons. cbn [length]. rewrite Nat2Z.inj_succ, Z.pow_succ_r by lia.
    pose proof (b2z_range b). nia.
Qed.

Lemma be_value_be_bytes (n : nat) (z : Z) :
  be_value (be_bytes n z) = z mod 2 ^ (8 * Z.of_nat n).
Proof.
  induction n as [|n IH].
  - cbn. rewrite Z.mod_1_r. reflexivity.
  - cbn [be_bytes]. rewrite be_value_cons, be_bytes_length, IH, b2z_z2b.
    replace (8 * Z.of_nat (S n)) with (8 * Z.of_nat n + 8) by lia.
    rewrite Z.pow_add_r by lia.
    replace (256 ^ Z.of_nat n) with (2 ^ (8 * Z.of_nat n)).
    2:{ rewrite Z.pow_mul_r by lia. reflexivity. }
    set (q := 2 ^ (8 * Z.of_nat n)).
    assert (0 < q) by (apply Z.pow_pos_nonneg; lia).
    change (2 ^ 8) with 256.
    rewrite Z.rem_mul_r by lia. lia.
Qed.

Lemma to_int64_uint64 (z : Z) :
  - 2 ^ 63 <= z < 2 ^ 63 -> to_int64 (z mod 2 ^ 64) = z.
Proof.
  intros Hz. unfold to_int64.
  destruct (Z.ltb_spec (z mod 2 ^ 64) (2 ^ 63)) as [Hlt|Hge].
  - destruct (Z_lt_le_dec z 0) as [Hneg|Hpos].
    + rewrite <- (Z.mod_add z 1 (2 ^ 64)) in Hlt by lia.
      rewrite Z.mod_small in Hlt by lia. lia.
    + apply Z.mod_small. lia.
  - destruct (Z_lt_le_dec z 0) as [Hneg|Hpos].
    + rewrite <- (Z.mod_add z 1 (2 ^ 64)) by lia.
      rewrite Z.mod_small by lia. lia.
    + rewrite Z.mod_small in Hge by lia. lia.
Qed.

(** ** Varints and the TLV stream decoder *)

Lemma be_bytes_roundtrip (n : nat) (z : Z) (rest : list byte) :
  0 <= z < 2 ^ (8 * Z.of_nat n) ->
  be_value (take n (be_bytes n z ++ rest)) = z /\ drop n (be_bytes n z ++ rest) = rest.
Proof.
  intros Hz. rewrite take_app_length', drop_app_length' by (symmetry; apply be_bytes_length).
  rewrite be_value_be_bytes, Z.mod_small by exact Hz. auto.
Qed.

Lemma WriteVarInt_nonempty (n : Z) : (1 <= length (WriteVarInt n))%nat.
Proof.
  unfold WriteVarInt.
  repeat match goal with |- context [if ?c then _ else _] => destruct c end;
    cbn [length]; lia.
Qed.

Lemma WriteVarInt_short (n : Z) : 0 <= n < 0xfd -> WriteVarInt n = [z2b n].
Proof.
  intros Hn. unfold WriteVarInt.
  destruct (Z.ltb_spec n 0xfd); [reflexivity | lia].
Qed.

Lemma ReadVarInt_WriteVarInt (n : Z) (rest : list byte) :
  0 <= n < 2 ^ 64 -> ReadVarInt (WriteVarInt n ++ rest) = Ok (n, rest).
Proof.
  intros Hn. unfold WriteVarInt.
  destruct (Z.ltb_spec n 0xfd) as [H1|H1].
  { cbn [app ReadVarInt]. rewrite b2z_z2b, Z.mod_small by lia.
    destruct (Z.ltb_spec n 0xfd); [reflexivity | lia]. }
  destruct (Z.leb_spec n 0xffff) as [H2|H2].
  { rewrite <- app_comm_cons. cbn [ReadVarInt].
    change (b2z (z2b 253)) with 253. cbn [Z.ltb Z.eqb Z.compare Pos.compare Pos.compare_cont Pos.eqb].
    rewrite length_app, be_bytes_length.
    destruct (Nat.ltb_spec (2 + length rest) 2); [lia|].
    destruct (be_bytes_roundtrip 2 n rest) as [-> ->]; [lia|].
    destruct (Z.ltb_spec n 253); [lia | reflexivity]. }
  destruct (Z.leb_spec n 0xffffffff) as [H3|H3].
  { rewrite <- app_comm_cons. cbn [ReadVarInt].
    change (b2z (z2b 254)) with 254. cbn [Z.ltb Z.eqb Z.compare Pos.compare Pos.compare_cont Pos.eqb].
    rewrite length_app, be_bytes_length.
    destruct (Nat.ltb_spec (4 + length rest) 4); [lia|].
    destruct (be_bytes_roundtrip 4 n rest) as [-> ->]; [lia|].
    destruct (Z.ltb_spec n 65536); [lia | reflexivity]. }
  rewrite <- app_comm_cons. cbn [ReadVarInt].
  change (b2z (z2b 255)) with 255. cbn [Z.ltb Z.eqb Z.compare Pos.compare Pos.compare_cont Pos.eqb].
  rewrite length_app, be_bytes_length.
  destruct (Nat.ltb_spec (8 + length rest) 8); [lia|].
  destruct (be_bytes_roundtrip 8 n rest) as [-> ->]; [lia|].
  destruct (Z.ltb_spec n 4294967296); [lia | reflexivity].
Qed.

Lemma ReadVarInt_consumes (r r' : list byte) (v : Z) :
  ReadVarInt r = Ok (v, r') -> (length r' < length r)%nat.
Proof.
  destruct r as [|d r1]; [discriminate|]. cbn [ReadVarInt length].
  repeat match goal with
  | |- context [if ?c then _ else _] => destruct c
  end; intros [= <- <-]; rewrite ?length_drop; lia.
Qed.

Lemma encode_record_nonempty (rec : Record) : (2 <= length (encode_record rec))%nat.
Proof.
  unfold encode_record. rewrite !length_app.
  pose proof (WriteVarInt_nonempty (rtype rec)).
  pose proof (WriteVarInt_nonempty (Z.of_nat (length (rvalue rec)))). lia.
Qed.

Lemma canonical_weaken (min min' : Z) (recs : list Record) :
  min' <= min -> canonical min recs -> canonical min' recs.
Proof.
  destruct recs as [|rec rest]; [trivial|]. cbn [canonical]. intuition lia.
Qed.

Lemma canonical_types (min : Z) (recs : list Record) :
  canonical min recs -> Forall (fun rec => min <= rtype rec) recs.
Proof.
  revert min. induction recs as [|rec rest IH]; intros min Hc; constructor.
  - cbn in Hc. lia.
  - destruct Hc as (Ht & _ & Hrest). apply IH in Hrest.
    eapply Forall_impl; [exact Hrest|]. cbn. intros; lia.
Qed.

(** One turn of the decoding loop over a well-formed record. *)
Lemma decode_record (fuel : nat) (known min : Z) (rec : Record) (more : list byte)
    (dst : slice) (parsed : TypeMap) :
  min <= rtype rec < 2 ^ 64 ->
  0 <= min ->
  Z.of_nat (length (rvalue rec)) <= MaxRecordSize ->
  decode (S fuel) known min (encode_record rec ++ more) dst parsed
  = if rtype rec =? known
    then decode fuel known (rtype rec + 1) more (Some (rvalue rec)) (<[rtype rec := None]> parsed)
    else decode fuel known (rtype rec + 1) more dst (<[rtype rec := Some (rvalue rec)]> parsed).
Proof.
  intros Ht Hmin Hlen. unfold MaxRecordSize in Hlen.
  cbn [decode]. unfold encode_record. rewrite <- !app_assoc.
  rewrite ReadVarInt_WriteVarInt by lia.
  destruct (Z.ltb_spec (rtype rec) min); [lia|].
  rewrite ReadVarInt_WriteVarInt by lia.
  unfold MaxRecordSize.
  destruct (Z.ltb_spec 65535 (Z.of_nat (length (rvalue rec)))); [lia|].
  rewrite Nat2Z.id, length_app.
  destruct (Nat.ltb_spec (length (rvalue rec) + length more) (length (rvalue rec))); [lia|].
  rewrite take_app_length, drop_app_length. reflexivity.
Qed.

(** A well-formed sequence of records none of which has the known type is
    read to its end: the destination is left alone and the known type
    stays as it was in the type map. *)
Lemma decode_unknown (known : Z) (recs : list Record) :
  forall (fuel : nat) (min : Z) (dst : slice) (parsed : TypeMap),
  0 <= min ->
  canonical min recs ->
  Forall (fun rec => rtype rec <> known) recs ->
  (length (encode_stream recs) < fuel)%nat ->
  exists parsed' : TypeMap,
    decode fuel known min (encode_stream recs) dst parsed = (dst, parsed', None) /\
    parsed' !! known = parsed !! known.
Proof.
  induction recs as [|rec rest IH]; intros fuel min dst parsed Hmin Hc Hne Hfuel.
  - destruct fuel as [|fuel]; [cbn in Hfuel; lia|].
    exists parsed. split; reflexivity.
  - destruct fuel as [|fuel]; [lia|].
    destruct Hc as (Ht & Hlen & Hrest).
    apply Forall_cons in Hne as [Hk Hne].
    cbn [encode_stream flat_map] in *. rewrite length_app in Hfuel.
    pose proof (encode_record_nonempty rec) as Hnonempty.
    rewrite decode_record by assumption.
    destruct (Z.eqb_spec (rtype rec) known) as [|_]; [contradiction|].
    destruct (IH fuel (rtype rec + 1) dst (<[rtype rec := Some (rvalue rec)]> parsed))
      as (parsed' & Hdec & Hlook); [lia | assumption | assumption | | ].
    { unfold encode_stream. lia. }
    exists parsed'. split; [exact Hdec|].
    rewrite Hlook. apply lookup_insert_ne. exact Hk.
Qed.

(** Fuel above the length of the input is never used up. *)
Lemma decode_fuel (known : Z) (fuel1 : nat) :
  forall (fuel2 : nat) (min : Z) (r : list byte) (dst : slice) (parsed : TypeMap),
  (length r < fuel1)%nat -> (length r < fuel2)%nat ->
  decode fuel1 known min r dst parsed = decode fuel2 known min r dst parsed.
Proof.
  induction fuel1 as [|fuel1 IH]; intros fuel2 min r dst parsed H1 H2; [lia|].
  destruct fuel2 as [|fuel2]; [lia|].
  cbn [decode].
  destruct (ReadVarInt r) as [[typ r1]|e] eqn:E1; [|reflexivity].
  apply ReadVarInt_consumes in E1.
  destruct (typ <? min); [reflexivity|].
  destruct (ReadVarInt r1) as [[len r2]|e] eqn:E2; [|reflexivity].
  apply ReadVarInt_consumes in E2.
  destruct (MaxRecordSize <? len); [reflexivity|].
  destruct (typ =? known);
    (destruct (length r2 <? Z.to_nat len)%nat; [reflexivity|]);
    apply IH; rewrite length_drop; lia.
Qed.

(** When the loop ends without error and has met the known type, the
    destination holds a decoded (non-nil) value. *)
Lemma decode_known_set (known : Z) (fuel : nat) :
  forall (min : Z) (r : list byte) (dst dst' : slice) (parsed parsed' : TypeMap),
  decode fuel known min r dst parsed = (dst', parsed', None) ->
  (is_Some (parsed !! known) -> is_Some dst) ->
  is_Some (parsed' !! known) -> is_Some dst'.
Proof.
  induction fuel as [|fuel IH]; intros min r dst dst' parsed parsed' Hdec Hinv Hmet;
    [discriminate|].
  cbn [decode] in Hdec.
  destruct (ReadVarInt r) as [[typ r1]|e].
  2:{ destruct e; try discriminate. injection Hdec as <- <-. auto. }
  destruct (typ <? min); [discriminate|].
  destruct (ReadVarInt r1) as [[len r2]|e].
  2:{ destruct e; discriminate. }
  destruct (MaxRecordSize <? len); [discriminate|].
  destruct (Z.eqb_spec typ known) as [->|Hne].
  - destruct (length r2 <? Z.to_nat len)%nat; [discriminate|].
    eapply IH; [exact Hdec | | exact Hmet]. intros _. eauto.
  - destruct (length r2 <? Z.to_nat len)%nat; [discriminate|].
    eapply IH; [exact Hdec | | exact Hmet].
    rewrite lookup_insert_ne by exact Hne. exact Hinv.
Qed.

(** Past the known type the destination is not written again. *)
Lemma decode_past_known (known : Z) (fuel : nat) :
  forall (min : Z) (r : list byte) (dst dst' : slice) (parsed parsed' : TypeMap),
  known < min ->
  decode fuel known min r dst parsed = (dst', parsed', None) ->
  dst' = dst.
Proof.
  induction fuel as [|fuel IH]; intros min r dst dst' parsed parsed' Hpast Hdec;
    [discriminate|].
  cbn [decode] in Hdec.
  destruct (ReadVarInt r) as [[typ r1]|e].
  2:{ destruct e; try discriminate. injection Hdec as <- <-. reflexivity. }
  destruct (Z.ltb_spec typ min) as [|Hmin]; [discriminate|].
  destruct (ReadVarInt r1) as [[len r2]|e].
  2:{ destruct e; discriminate. }
  destruct (MaxRecordSize <? len); [discriminate|].
  destruct (Z.eqb_spec typ known) as [->|Hne]; [lia|].
  destruct (length r2 <? Z.to_nat len)%nat; [discriminate|].
  eapply IH; [|exact Hdec]. lia.
Qed.

(** The known record's payload is never longer than the input minus the
    two bytes at least that its type id and length take. *)
Lemma decode_known_length (known : Z) (fuel : nat) :
  forall (min : Z) (r : list byte) (dst dst' : slice) (parsed parsed' : TypeMap),
  decode fuel known min r dst parsed = (dst', parsed', None) ->
  parsed !! known = None ->
  is_Some (parsed' !! known) ->
  (len dst' + 2 <= length r)%nat.
Proof.
  induction fuel as [|fuel IH]; intros min r dst dst' parsed parsed' Hdec Hnone Hmet;
    [discriminate|].
  cbn [decode] in Hdec.
  destruct (ReadVarInt r) as [[typ r1]|e] eqn:E1.
  2:{ destruct e; try discriminate. injection Hdec as <- <-.
      rewrite Hnone in Hmet. destruct Hmet; discriminate. }
  apply ReadVarInt_consumes in E1.
  destruct (Z.ltb_spec typ min) as [|Hmin]; [discriminate|].
  destruct (ReadVarInt r1) as [[size r2]|e] eqn:E2.
  2:{ destruct e; discriminate. }
  apply ReadVarInt_consumes in E2.
  destruct (MaxRecordSize <? size); [discriminate|].
  destruct (Z.eqb_spec typ known) as [->|Hne].
  - destruct (Nat.ltb_spec (length r2) (Z.to_nat size)) as [|Hfit]; [discriminate|].
    apply decode_past_known in Hdec; [|lia]. subst dst'.
    cbn [len]. rewrite length_take. lia.
  - destruct (Nat.ltb_spec (length r2) (Z.to_nat size)) as [|Hfit]; [discriminate|].
    apply IH in Hdec; [| rewrite lookup_insert_ne by exact Hne; exact Hnone | exact Hmet].
    rewrite length_drop in Hdec. lia.
Qed.

(** ** The shutdown-script extension *)

(** *** packShutdownScript *)

Lemma encode_address_record (addr : DeliveryAddress) :
  encode_record (NewRecord addr)
  = x00 :: WriteVarInt (Z.of_nat (len addr)) ++ contents addr.
Proof. destruct addr; reflexivity. Qed.

Lemma packShutdownScript_eq (addr : DeliveryAddress) (extraData : ExtraOpaqueData) :
  packShutdownScript addr extraData
  = (Some (encode_record (NewRecord addr) ++ contents extraData), None).
Proof.
  unfold packShutdownScript, PackRecords, encode_stream. cbn [flat_map].
  rewrite app_nil_r, encode_address_record. cbn [append contents app].
  destruct (contents extraData); reflexivity.
Qed.

(** *** parseShutdownScript *)

Lemma parse_address_record (p : list byte) (recs : list Record) :
  Z.of_nat (length p) <= MaxRecordSize ->
  canonical (DeliveryAddrType + 1) recs ->
  parseShutdownScript (Some (encode_record (MakeRecord DeliveryAddrType p) ++ encode_stream recs))
  = (Some p,
     Some (drop (length p + 2) (encode_record (MakeRecord DeliveryAddrType p) ++ encode_stream recs)),
     None).
Proof.
  intros Hlen Hc.
  pose proof (encode_record_nonempty (MakeRecord DeliveryAddrType p)) as Hne.
  unfold parseShutdownScript, ExtractRecords. cbn [len contents].
  destruct (Nat.eqb_spec (length (encode_record (MakeRecord DeliveryAddrType p) ++ encode_stream recs)) 0)
    as [Hz|_]; [rewrite length_app in Hz; lia|].
  rewrite decode_record by (cbn [rtype rvalue]; unfold DeliveryAddrType; lia).
  cbn [rtype rvalue]. rewrite Z.eqb_refl.
  destruct (decode_unknown DeliveryAddrType recs
              (length (encode_record (MakeRecord DeliveryAddrType p) ++ encode_stream recs))
              (DeliveryAddrType + 1) (Some p) (<[DeliveryAddrType := None]> ∅))
    as (parsed' & -> & Hlook).
  - unfold DeliveryAddrType. lia.
  - exact Hc.
  - apply canonical_types in Hc. eapply Forall_impl; [exact Hc|]. cbn. intros; lia.
  - rewrite length_app. lia.
  - rewrite Hlook, lookup_insert_eq. reflexivity.
Qed.

Lemma parse_address_record_short (p : list byte) (recs : list Record) :
  (length p < 253)%nat ->
  canonical (DeliveryAddrType + 1) recs ->
  parseShutdownScript (Some (encode_record (MakeRecord DeliveryAddrType p) ++ encode_stream recs))
  = (Some p, Some (encode_stream recs), None).
Proof.
  intros Hshort Hc. rewrite parse_address_record by (unfold MaxRecordSize; lia || exact Hc).
  do 3 f_equal. unfold encode_record. cbn [rtype rvalue].
  rewrite (WriteVarInt_short (Z.of_nat (length p))) by lia.
  change (WriteVarInt DeliveryAddrType) with [x00].
  rewrite <- !app_assoc. cbn [app].
  replace (length p + 2)%nat with (S (S (length p))) by lia. cbn [drop].
  apply drop_app_length.
Qed.

Lemma parse_address_record_long (p : list byte) (recs : list Record) :
  (253 <= length p)%nat ->
  Z.of_nat (length p) <= MaxRecordSize ->
  canonical (DeliveryAddrType + 1) recs ->
  parseShutdownScript (Some (encode_record (MakeRecord DeliveryAddrType p) ++ encode_stream recs))
  = (Some p, Some (drop (length p - 2) p ++ encode_stream recs), None).
Proof.
  intros Hlong Hlen Hc. rewrite parse_address_record by assumption.
  do 3 f_equal. unfold encode_record, WriteVarInt, MaxRecordSize in *. cbn [rtype rvalue].
  destruct (Z.ltb_spec (Z.of_nat (length p)) 253); [lia|].
  destruct (Z.leb_spec (Z.of_nat (length p)) 65535); [|lia].
  change (if DeliveryAddrType <? 253 then [z2b DeliveryAddrType] else _) with [x00].
  cbn [be_bytes app].
  replace (length p + 2)%nat with (S (S (S (S (length p - 2))))) by lia. cbn [drop].
  rewrite drop_app_le by lia. reflexivity.
Qed.

Lemma parse_no_address_record (rec : Record) (rest : list Record) :
  canonical 0 (rec :: rest) ->
  rtype rec <> DeliveryAddrType ->
  parseShutdownScript (Some (encode_stream (rec :: rest)))
  = (nil_slice, nil_slice, Some MissingShutdownScriptRecord).
Proof.
  intros Hc Hfirst.
  assert (Hne : Forall (fun r => rtype r <> DeliveryAddrType) (rec :: rest)).
  { assert (H1 : canonical 1 (rec :: rest)).
    { destruct Hc as (Ht & Hl & Hrest). unfold DeliveryAddrType in Hfirst.
      cbn [canonical]. repeat split; try lia; assumption. }
    apply canonical_types in H1. eapply Forall_impl; [exact H1|].
    unfold DeliveryAddrType. cbn. intros; lia. }
  unfold parseShutdownScript, ExtractRecords. cbn [len contents].
  pose proof (encode_record_nonempty rec) as Hnonempty.
  destruct (Nat.eqb_spec (length (encode_stream (rec :: rest))) 0) as [Hz|_].
  { cbn [encode_stream flat_map] in Hz. rewrite length_app in Hz. lia. }
  destruct (decode_unknown DeliveryAddrType (rec :: rest)
              (S (length (encode_stream (rec :: rest)))) 0 nil_slice ∅)
    as (parsed' & -> & Hlook); [lia | exact Hc | exact Hne | lia |].
  rewrite Hlook, lookup_empty. reflexivity.
Qed.

Lemma parse_empty (tlvRecords : ExtraOpaqueData) :
  len tlvRecords = 0%nat ->
  parseShutdownScript tlvRecords = (nil_slice, tlvRecords, None).
Proof. intros H. unfold parseShutdownScript. rewrite H. reflexivity. Qed.

Lemma parse_success_address (tlvRecords addr rest : ExtraOpaqueData) :
  len tlvRecords <> 0%nat ->
  parseShutdownScript tlvRecords = (addr, rest, None) ->
  is_Some addr /\ (len addr + 2 <= len tlvRecords)%nat.
Proof.
  intros Hne. unfold parseShutdownScript.
  destruct (Nat.eqb_spec (len tlvRecords) 0) as [|_]; [contradiction|].
  unfold ExtractRecords.
  destruct (decode _ _ _ _ _ _) as [[a tlvs] [e|]] eqn:Hdec; [discriminate|].
  destruct (tlvs !! DeliveryAddrType) as [v|] eqn:Hlook; [|discriminate].
  intros [= <- <-]. split.
  - eapply decode_known_set; [exact Hdec | | rewrite Hlook; eauto].
    rewrite lookup_empty. intros [? [=]].
  - destruct tlvRecords as [l|]; [|contradiction]. cbn [len contents] in *.
    eapply decode_known_length; [exact Hdec | apply lookup_empty | rewrite Hlook; eauto].
Qed.


(** ** Encode and Decode *)

Section EncodeDecode.
Context {KC : KeyCodec}.

Lemma bind_run {A B : Type} (m : M A) (f : A -> M B) (s : state) :
  (m ≫= f) s
  = match m s with
    | (Ok a, s') => f a s'
    | (Err e, s') => (Err e, s')
    end.
Proof. reflexivity. Qed.

(** *** Encode *)

Lemma write_field {A : Type} (f : AcceptChannel -> A) (w : A -> M unit) (k : M unit)
    (s : state) (bs : list byte) :
  w (f (recv s)) s = (Ok tt, State (recv s) (stream s ++ bs)) ->
  ((field f ≫= w);; k) s = k (State (recv s) (stream s ++ bs)).
Proof. intros Hw. rewrite bind_run. unfold field at 1. rewrite bind_run. cbn. rewrite Hw. reflexivity. Qed.

Lemma WritePublicKey_run (pub : option PublicKey) (k : PublicKey) (s : state) :
  pub = Some k ->
  WritePublicKey pub s = (Ok tt, State (recv s) (stream s ++ SerializeCompressed k)).
Proof. intros ->. reflexivity. Qed.

Lemma Encode_run (pver : Z) (a : AcceptChannel) (w : list byte) :
  FundingKey a <> None -> RevocationPoint a <> None -> PaymentPoint a <> None ->
  DelayedPaymentPoint a <> None -> HtlcPoint a <> None -> FirstCommitmentPoint a <> None ->
  Encode pver (State a w)
  = (Ok tt, State a (w ++ fixed_fields a ++
                     encode_record (NewRecord (UpfrontShutdownScript a)) ++ contents (ExtraData a))).
Proof.
  intros H1 H2 H3 H4 H5 H6.
  destruct (FundingKey a) as [k1|] eqn:E1; [|contradiction].
  destruct (RevocationPoint a) as [k2|] eqn:E2; [|contradiction].
  destruct (PaymentPoint a) as [k3|] eqn:E3; [|contradiction].
  destruct (DelayedPaymentPoint a) as [k4|] eqn:E4; [|contradiction].
  destruct (HtlcPoint a) as [k5|] eqn:E5; [|contradiction].
  destruct (FirstCommitmentPoint a) as [k6|] eqn:E6; [|contradiction].
  unfold Encode, fixed_fields. rewrite E1, E2, E3, E4, E5, E6.
  rewrite bind_run. unfold field at 1. rewrite bind_run. unfold field at 1.
  cbn [recv stream]. rewrite packShutdownScript_eq.
  repeat (erewrite write_field; [| first [ reflexivity | apply WritePublicKey_run; eassumption ] ];
          cbn [recv stream]).
  unfold WriteBytes. cbn [recv stream contents key_bytes].
  rewrite <- !app_assoc. reflexivity.
Qed.


(** Computations that leave the receiver as it was. *)
Lemma bind_keeps_recv {A B : Type} (m : M A) (f : A -> M B) :
  (forall s, recv (snd (m s)) = recv s) ->
  (forall a s, recv (snd (f a s)) = recv s) ->
  forall s, recv (snd ((m ≫= f) s)) = recv s.
Proof.
  intros Hm Hf s. rewrite bind_run. specialize (Hm s).
  destruct (m s) as [[a|e] s']; cbn [snd] in *; [rewrite Hf|]; exact Hm.
Qed.

Lemma field_keeps_recv {A : Type} (f : AcceptChannel -> A) (s : state) :
  recv (snd (field f s)) = recv s.
Proof. reflexivity. Qed.

Lemma WriteBytes_keeps_recv (b : list byte) (s : state) :
  recv (snd (WriteBytes b s)) = recv s.
Proof. reflexivity. Qed.

Lemma WritePublicKey_keeps_recv (pub : option PublicKey) (s : state) :
  recv (snd (WritePublicKey pub s)) = recv s.
Proof. destruct pub; reflexivity. Qed.


(** *** Decode *)

Lemma ReadFull_app (n : nat) (a : AcceptChannel) (x rest : list byte) :
  length x = n -> ReadFull n (State a (x ++ rest)) = (Ok x, State a rest).
Proof.
  intros Hn. unfold ReadFull. cbn [stream recv]. rewrite length_app.
  destruct (Nat.leb_spec n (length x + length rest)); [|lia].
  rewrite take_app_length', drop_app_length' by congruence. reflexivity.
Qed.

Lemma ReadElements_cons (e : element) (es : list element) (s s' : state) :
  ReadElement e s = (Ok tt, s') ->
  ReadElements (e :: es) s = ReadElements es s'.
Proof. intros He. cbn [ReadElements]. rewrite bind_run, He. reflexivity. Qed.

Lemma ReadElements_fail (e : element) (es : list element) (s s' : state) (err : error) :
  ReadElement e s = (Err err, s') ->
  ReadElements (e :: es) s = (Err err, s').
Proof. intros He. cbn [ReadElements]. rewrite bind_run, He. reflexivity. Qed.

Lemma ReadElement_bytes (n : nat) set (a : AcceptChannel) (x rest : list byte) :
  length x = n ->
  ReadElement (BytesSlice n set) (State a (x ++ rest)) = (Ok tt, State (set x a) rest).
Proof. intros Hn. cbn [ReadElement]. rewrite bind_run, ReadFull_app by exact Hn. reflexivity. Qed.

Lemma ReadElement_amount set (a : AcceptChannel) (z : Z) (rest : list byte) :
  - 2 ^ 63 <= z < 2 ^ 63 ->
  ReadElement (AmountPtr set) (State a (be_bytes 8 z ++ rest)) = (Ok tt, State (set z a) rest).
Proof.
  intros Hz. cbn [ReadElement]. rewrite bind_run, ReadFull_app by apply be_bytes_length.
  rewrite be_value_be_bytes. change (8 * Z.of_nat 8) with 64.
  rewrite to_int64_uint64 by exact Hz. reflexivity.
Qed.

Lemma ReadElement_msat set (a : AcceptChannel) (z : Z) (rest : list byte) :
  0 <= z < 2 ^ 64 ->
  ReadElement (MilliSatoshiPtr set) (State a (be_bytes 8 z ++ rest)) = (Ok tt, State (set z a) rest).
Proof.
  intros Hz. cbn [ReadElement]. rewrite bind_run, ReadFull_app by apply be_bytes_length.
  rewrite be_value_be_bytes, Z.mod_small by exact Hz. reflexivity.
Qed.

Lemma ReadElement_uint32 set (a : AcceptChannel) (z : Z) (rest : list byte) :
  0 <= z < 2 ^ 32 ->
  ReadElement (Uint32Ptr set) (State a (be_bytes 4 z ++ rest)) = (Ok tt, State (set z a) rest).
Proof.
  intros Hz. cbn [ReadElement]. rewrite bind_run, ReadFull_app by apply be_bytes_length.
  rewrite be_value_be_bytes, Z.mod_small by exact Hz. reflexivity.
Qed.

Lemma ReadElement_uint16 set (a : AcceptChannel) (z : Z) (rest : list byte) :
  0 <= z < 2 ^ 16 ->
  ReadElement (Uint16Ptr set) (State a (be_bytes 2 z ++ rest)) = (Ok tt, State (set z a) rest).
Proof.
  intros Hz. cbn [ReadElement]. rewrite bind_run, ReadFull_app by apply be_bytes_length.
  rewrite be_value_be_bytes, Z.mod_small by exact Hz. reflexivity.
Qed.

Lemma ReadElement_key set (a : AcceptChannel) (x rest : list byte) :
  length x = PubKeyBytesLenCompressed ->
  ReadElement (PublicKeyPtr set) (State a (x ++ rest))
  = match ParsePubKey x with
    | Some k => (Ok tt, State (set (Some k) a) rest)
    | None => (Err MalformedPublicKey, State a rest)
    end.
Proof.
  intros Hx. cbn [ReadElement]. rewrite bind_run, ReadFull_app by exact Hx.
  destruct (ParsePubKey x); reflexivity.
Qed.

Lemma ReadElement_valid_key set (a : AcceptChannel) (pub : option PublicKey) (rest : list byte) :
  valid_key_field pub ->
  ReadElement (PublicKeyPtr set) (State a (key_bytes pub ++ rest))
  = (Ok tt, State (set pub a) rest).
Proof.
  destruct pub as [k|]; [|contradiction]. intros [Hlen Hparse]. cbn [key_bytes].
  rewrite ReadElement_key by exact Hlen. rewrite Hparse. reflexivity.
Qed.

(** [Decode] on the fixed fields of a message followed by a TLV blob. *)
Lemma Decode_run (pver : Z) (a0 m : AcceptChannel) (blob : list byte) :
  well_typed m ->
  valid_keys m ->
  Decode pver (State a0 (fixed_fields m ++ blob))
  = (match snd (parseShutdownScript (Some blob)) with
     | Some e => Err e
     | None => Ok tt
     end,
     State (set_ExtraData (snd (fst (parseShutdownScript (Some blob))))
              (set_UpfrontShutdownScript (fst (fst (parseShutdownScript (Some blob)))) m))
           []).
Proof.
  intros (Hid & Hdl & Hmv & Hcr & Hhm & Hmad & Hcsv & Hmah) (K1 & K2 & K3 & K4 & K5 & K6).
  unfold Decode, fixed_fields. rewrite <- !app_assoc. rewrite bind_run.
  erewrite ReadElements_cons by (apply ReadElement_bytes; exact Hid).
  erewrite ReadElements_cons by (apply ReadElement_amount; exact Hdl).
  erewrite ReadElements_cons by (apply ReadElement_msat; exact Hmv).
  erewrite ReadElements_cons by (apply ReadElement_amount; exact Hcr).
  erewrite ReadElements_cons by (apply ReadElement_msat; exact Hhm).
  erewrite ReadElements_cons by (apply ReadElement_uint32; exact Hmad).
  erewrite ReadElements_cons by (apply ReadElement_uint16; exact Hcsv).
  erewrite ReadElements_cons by (apply ReadElement_uint16; exact Hmah).
  erewrite ReadElements_cons by (apply ReadElement_valid_key; exact K1).
  erewrite ReadElements_cons by (apply ReadElement_valid_key; exact K2).
  erewrite ReadElements_cons by (apply ReadElement_valid_key; exact K3).
  erewrite ReadElements_cons by (apply ReadElement_valid_key; exact K4).
  erewrite ReadElements_cons by (apply ReadElement_valid_key; exact K5).
  erewrite ReadElements_cons by (apply ReadElement_valid_key; exact K6).
  cbn [ReadElements]. unfold mret, M_ret. rewrite bind_run.
  unfold ReadExtraOpaqueData. cbn [stream recv].
  destruct (parseShutdownScript (Some blob)) as [[addr extra] err].
  rewrite !bind_run. cbn [fst snd store recv stream].
  destruct m; destruct err; reflexivity.
Qed.




Lemma ReadFull_enough (n : nat) (s : state) :
  (n <= length (stream s))%nat ->
  ReadFull n s = (Ok (take n (stream s)), State (recv s) (drop n (stream s))).
Proof. intros Hn. unfold ReadFull. destruct (Nat.leb_spec n (length (stream s))); [reflexivity | lia]. Qed.

(** The eight scalar fields take the first 72 bytes, whatever they hold. *)
Lemma ReadElements_scalars (es : list element) (a0 : AcceptChannel) (scalars more : list byte) :
  length scalars = 72%nat ->
  exists a1 : AcceptChannel,
    ReadElements
      (BytesSlice 32 set_PendingChannelID :: AmountPtr set_DustLimit ::
       MilliSatoshiPtr set_MaxValueInFlight :: AmountPtr set_ChannelReserve ::
       MilliSatoshiPtr set_HtlcMinimum :: Uint32Ptr set_MinAcceptDepth ::
       Uint16Ptr set_CsvDelay :: Uint16Ptr set_MaxAcceptedHTLCs :: es)
      (State a0 (scalars ++ more))
    = ReadElements es (State a1 more) /\
    UpfrontShutdownScript a1 = UpfrontShutdownScript a0 /\
    ExtraData a1 = ExtraData a0.
Proof.
  intros Hlen.
  assert (Hstep : forall e s n upd,
    (forall s', ReadElement e s' = (b ← ReadFull n; store (upd b)) s') ->
    (n <= length (stream s))%nat ->
    forall rest, ReadElements (e :: rest) s
      = ReadElements rest (State (upd (take n (stream s)) (recv s)) (drop n (stream s)))).
  { intros e s n upd He Hn rest. apply ReadElements_cons.
    rewrite He, bind_run, ReadFull_enough by exact Hn. reflexivity. }
  eexists. split.
  - rewrite (Hstep _ _ 32%nat set_PendingChannelID) by
      (first [reflexivity | cbn [stream]; rewrite ?length_drop, length_app; lia]).
    rewrite (Hstep _ _ 8%nat (fun b => set_DustLimit (to_int64 (be_value b)))) by
      (first [reflexivity | cbn [stream]; rewrite ?length_drop, length_app; lia]).
    rewrite (Hstep _ _ 8%nat (fun b => set_MaxValueInFlight (be_value b))) by
      (first [reflexivity | cbn [stream]; rewrite ?length_drop, length_app; lia]).
    rewrite (Hstep _ _ 8%nat (fun b => set_ChannelReserve (to_int64 (be_value b)))) by
      (first [reflexivity | cbn [stream]; rewrite ?length_drop, length_app; lia]).
    rewrite (Hstep _ _ 8%nat (fun b => set_HtlcMinimum (be_value b))) by
      (first [reflexivity | cbn [stream]; rewrite ?length_drop, length_app; lia]).
    rewrite (Hstep _ _ 4%nat (fun b => set_MinAcceptDepth (be_value b))) by
      (first [reflexivity | cbn [stream]; rewrite ?length_drop, length_app; lia]).
    rewrite (Hstep _ _ 2%nat (fun b => set_CsvDelay (be_value b))) by
      (first [reflexivity | cbn [stream]; rewrite ?length_drop, length_app; lia]).
    rewrite (Hstep _ _ 2%nat (fun b => set_MaxAcceptedHTLCs (be_value b))) by
      (first [reflexivity | cbn [stream]; rewrite ?length_drop, length_app; lia]).
    cbn [stream recv]. f_equal. f_equal. rewrite !drop_drop.
    apply drop_app_length'. rewrite Hlen. reflexivity.
  - split; reflexivity.
Qed.

(** Reading key fields stops at the first one the key parser rejects. *)
Lemma ReadElements_keys_malformed
    (sets : list (option PublicKey -> AcceptChannel -> AcceptChannel)) :
  forall (keys : list (list byte)) (a : AcceptChannel) (more : list byte),
  length sets = length keys ->
  Forall (fun k => length k = PubKeyBytesLenCompressed) keys ->
  Exists (fun k => ParsePubKey k = None) keys ->
  Forall (fun set => forall v a', UpfrontShutdownScript (set v a') = UpfrontShutdownScript a' /\
                                  ExtraData (set v a') = ExtraData a') sets ->
  exists s' : state,
    ReadElements (map PublicKeyPtr sets) (State a (concat keys ++ more)) = (Err MalformedPublicKey, s') /\
    UpfrontShutdownScript (recv s') = UpfrontShutdownScript a /\
    ExtraData (recv s') = ExtraData a.
Proof.
  induction sets as [|set sets IH]; intros keys a more Hn Hlen Hbad Hframe.
  - destruct keys; [inversion Hbad | discriminate].
  - destruct keys as [|k keys]; [discriminate|].
    apply Forall_cons in Hlen as [Hk Hlen]. apply Forall_cons in Hframe as [Hset Hframe].
    cbn [concat map]. rewrite <- app_assoc.
    pose proof (ReadElement_key set a k (concat keys ++ more) Hk) as Hread.
    destruct (ParsePubKey k) as [pub|] eqn:Hparse.
    + erewrite ReadElements_cons by exact Hread.
      destruct (IH keys (set (Some pub) a) more) as (s' & Hs' & Hscript & Hextra);
        [cbn in Hn; lia | exact Hlen | | exact Hframe |].
      { inversion Hbad; subst; [congruence | assumption]. }
      exists s'. destruct (Hset (Some pub) a) as [<- <-]. auto.
    + erewrite ReadElements_fail by exact Hread. eexists. split; [reflexivity|]. auto.
Qed.

(** [Decode] on input with a key field the parser rejects. *)
Lemma Decode_malformed (pver : Z) (a0 : AcceptChannel) (scalars : list byte)
    (keys : list (list byte)) (rest : list byte) :
  length scalars = 72%nat ->
  length keys = 6%nat ->
  Forall (fun k => length k = PubKeyBytesLenCompressed) keys ->
  Exists (fun k => ParsePubKey k = None) keys ->
  exists s' : state,
    Decode pver (State a0 (scalars ++ concat keys ++ rest)) = (Err MalformedPublicKey, s') /\
    UpfrontShutdownScript (recv s') = UpfrontShutdownScript a0 /\
    ExtraData (recv s') = ExtraData a0.
Proof.
  intros Hscalars Hkeys Hlen Hbad. unfold Decode. rewrite bind_run.
  destruct (ReadElements_scalars
              (map PublicKeyPtr [set_FundingKey; set_RevocationPoint; set_PaymentPoint;
                                 set_DelayedPaymentPoint; set_HtlcPoint; set_FirstCommitmentPoint])
              a0 scalars (concat keys ++ rest) Hscalars) as (a1 & Hrun & Hs1 & He1).
  cbn [map] in Hrun. rewrite Hrun.
  destruct (ReadElements_keys_malformed
              [set_FundingKey; set_RevocationPoint; set_PaymentPoint;
               set_DelayedPaymentPoint; set_HtlcPoint; set_FirstCommitmentPoint]
              keys a1 rest) as (s' & Hs' & Hscript & Hextra).
  - rewrite Hkeys. reflexivity.
  - exact Hlen.
  - exact Hbad.
  - repeat constructor.
  - cbn [map] in Hs'. rewrite Hs'. exists s'. rewrite Hscript, Hextra. auto.
Qed.

End EncodeDecode.

(** * The contract of the codec *)

Section Contract.
Context {KC : KeyCodec}.

(** The bytes [Encode] produces for a message with six valid keys. *)
Lemma encoded_eq (m : AcceptChannel) :
  valid_keys m ->
  encoded m
  = fixed_fields m ++ encode_record (NewRecord (UpfrontShutdownScript m)) ++ contents (ExtraData m).
Proof.
  intros (K1 & K2 & K3 & K4 & K5 & K6). unfold encoded.
  rewrite Encode_run; [reflexivity | ..].
  all: match goal with
       | H : valid_key_field ?f |- ?f <> None => destruct f; [discriminate | contradiction]
       end.
Qed.

(** Decoding what [Encode] produced, for a script below 253 bytes and
    extra data that is a well-formed record sequence above the address
    type. *)
Lemma Decode_encoded (pver : Z) (a0 m : AcceptChannel) (recs : list Record) :
  well_typed m ->
  valid_keys m ->
  (len (UpfrontShutdownScript m) < 253)%nat ->
  contents (ExtraData m) = encode_stream recs ->
  canonical (DeliveryAddrType + 1) recs ->
  Decode pver (State a0 (encoded m))
  = (Ok tt,
     State (set_ExtraData (explicit (ExtraData m))
              (set_UpfrontShutdownScript (explicit (UpfrontShutdownScript m)) m))
           []).
Proof.
  intros Hwt Hkeys Hshort Hextra Hc.
  rewrite encoded_eq, Decode_run by assumption.
  rewrite Hextra.
  replace (NewRecord (UpfrontShutdownScript m))
    with (MakeRecord DeliveryAddrType (contents (UpfrontShutdownScript m))) by reflexivity.
  rewrite parse_address_record_short.
  - cbn [fst snd]. unfold explicit. rewrite Hextra. reflexivity.
  - destruct (UpfrontShutdownScript m); cbn [len contents length] in *; lia.
  - exact Hc.
Qed.

(** C1 (amended).  For every message [m] whose scalar fields are within
    their Go types, whose six public keys are valid curve points, whose
    upfront shutdown script is shorter than 253 bytes and whose extra data
    is a well-formed sequence of TLV records with strictly ascending type
    ids above the address type, decoding the bytes produced by encoding
    [m], into any receiver, succeeds, consumes all of them and yields [m]
    field for field, except that a script or extra data that is absent
    (nil) comes back explicitly empty.  So a message whose script and
    extra data are both present decodes to itself, and a zero-length
    script is always recovered as an explicitly empty one. *)
Theorem Decode_Encode_roundtrip (pver : Z) (a0 m : AcceptChannel) (recs : list Record) :
  well_typed m ->
  valid_keys m ->
  (len (UpfrontShutdownScript m) < 253)%nat ->
  contents (ExtraData m) = encode_stream recs ->
  canonical (DeliveryAddrType + 1) recs ->
  Decode pver (State a0 (encoded m))
  = (Ok tt,
     State (set_ExtraData (explicit (ExtraData m))
              (set_UpfrontShutdownScript (explicit (UpfrontShutdownScript m)) m))
           []) /\
  (UpfrontShutdownScript m <> nil_slice -> ExtraData m <> nil_slice ->
   Decode pver (State a0 (encoded m)) = (Ok tt, State m [])) /\
  (len (UpfrontShutdownScript m) = 0%nat ->
   UpfrontShutdownScript (recv (snd (Decode pver (State a0 (encoded m))))) = Some []).
Proof.
  intros Hwt Hkeys Hshort Hextra Hc.
  pose proof (Decode_encoded pver a0 m recs Hwt Hkeys Hshort Hextra Hc) as Hrun.
  split; [exact Hrun|]. split.
  - intros Hs He. rewrite Hrun. do 2 f_equal.
    destruct m as [? ? ? ? ? ? ? ? ? ? ? ? ? ? [script|] [extra|]];
      cbn in Hs, He |- *; unfold nil_slice in *; first [reflexivity | congruence].
  - intros Hz. rewrite Hrun. cbn [snd recv].
    destruct (UpfrontShutdownScript m) as [[|b script]|] eqn:E; cbn in Hz; try discriminate;
      unfold set_ExtraData, set_UpfrontShutdownScript, explicit; cbn; rewrite ?E; reflexivity.
Qed.

(** C2.  For every non-empty TLV blob, that is, the encoding of a sequence
    of records with strictly ascending type ids, whose first record's type
    id is not the delivery-address type id, [parseShutdownScript] fails
    with [MissingShutdownScriptRecord], and so does [Decode] on the fixed
    fields of a message followed by such a blob. *)
Theorem missing_shutdown_script_record (pver : Z) (a0 m : AcceptChannel)
    (rec : Record) (rest : list Record) :
  canonical 0 (rec :: rest) ->
  rtype rec <> DeliveryAddrType ->
  well_typed m ->
  valid_keys m ->
  encode_stream (rec :: rest) <> [] /\
  parseShutdownScript (Some (encode_stream (rec :: rest)))
  = (nil_slice, nil_slice, Some MissingShutdownScriptRecord) /\
  fst (Decode pver (State a0 (fixed_fields m ++ encode_stream (rec :: rest))))
  = Err MissingShutdownScriptRecord.
Proof.
  intros Hc Hfirst Hwt Hkeys. split; [|split].
  - pose proof (encode_record_nonempty rec) as Hne. cbn [encode_stream flat_map].
    destruct (encode_record rec); [cbn in Hne; lia | discriminate].
  - apply parse_no_address_record; assumption.
  - rewrite Decode_run, parse_no_address_record by assumption. reflexivity.
Qed.

(** C3 (amended).  [Encode] on a message whose six keys are set appends
    to the buffer, in exactly this order, PendingChannelID, DustLimit,
    MaxValueInFlight, ChannelReserve, HtlcMinimum, MinAcceptDepth,
    CsvDelay, MaxAcceptedHTLCs, FundingKey, RevocationPoint, PaymentPoint,
    DelayedPaymentPoint, HtlcPoint, FirstCommitmentPoint, and then the
    combined TLV blob of [packShutdownScript] as it is, with no length in
    front of it: the blob is the rest of the message. *)
Theorem Encode_wire_order (pver : Z) (a : AcceptChannel) (w : list byte)
    (k1 k2 k3 k4 k5 k6 : PublicKey) :
  FundingKey a = Some k1 ->
  RevocationPoint a = Some k2 ->
  PaymentPoint a = Some k3 ->
  DelayedPaymentPoint a = Some k4 ->
  HtlcPoint a = Some k5 ->
  FirstCommitmentPoint a = Some k6 ->
  Encode pver (State a w)
  = (Ok tt,
     State a (w ++
       PendingChannelID a ++
       be_bytes 8 (DustLimit a) ++
       be_bytes 8 (MaxValueInFlight a) ++
       be_bytes 8 (ChannelReserve a) ++
       be_bytes 8 (HtlcMinimum a) ++
       be_bytes 4 (MinAcceptDepth a) ++
       be_bytes 2 (CsvDelay a) ++
       be_bytes 2 (MaxAcceptedHTLCs a) ++
       SerializeCompressed k1 ++
       SerializeCompressed k2 ++
       SerializeCompressed k3 ++
       SerializeCompressed k4 ++
       SerializeCompressed k5 ++
       SerializeCompressed k6 ++
       contents (fst (packShutdownScript (UpfrontShutdownScript a) (ExtraData a))))).
Proof.
  intros E1 E2 E3 E4 E5 E6.
  rewrite Encode_run by congruence.
  unfold fixed_fields. rewrite E1, E2, E3, E4, E5, E6, packShutdownScript_eq.
  cbn [key_bytes fst contents]. rewrite <- !app_assoc. reflexivity.
Qed.

(** C7.  For the empty TLV blob [parseShutdownScript] succeeds and returns
    no address and the (empty) blob as remainder; absence of the address is
    legal only then: whenever it succeeds with no address, the blob was
    empty.  Correspondingly [Decode] on the fixed fields of a message with
    nothing after them succeeds and leaves no address and zero-length
    extra data. *)
Theorem parseShutdownScript_empty_blob (pver : Z) (a0 m : AcceptChannel)
    (tlvRecords : ExtraOpaqueData) :
  len tlvRecords = 0%nat ->
  well_typed m ->
  valid_keys m ->
  parseShutdownScript tlvRecords = (nil_slice, tlvRecords, None) /\
  (forall blob addr rest : slice,
     parseShutdownScript blob = (addr, rest, None) -> addr = nil_slice -> len blob = 0%nat) /\
  Decode pver (State a0 (fixed_fields m))
  = (Ok tt, State (set_ExtraData (Some []) (set_UpfrontShutdownScript nil_slice m)) []).
Proof.
  intros Hz Hwt Hkeys. split; [|split].
  - apply parse_empty. exact Hz.
  - intros blob addr rest Hparse ->.
    destruct (Nat.eq_dec (len blob) 0%nat) as [|Hne]; [assumption|].
    destruct (parse_success_address blob nil_slice rest Hne Hparse) as [[? [=]] _].
  - rewrite <- (app_nil_r (fixed_fields m)) at 1.
    rewrite Decode_run by assumption. reflexivity.
Qed.

(** C8.  For every input whose first 72 bytes are followed by six 33-byte
    key fields of which at least one does not encode a valid curve point
    (the key parser rejects it), [Decode] fails with [MalformedPublicKey].
    Its only result is that error, no message comes with it; decoding
    stops at the key, so the receiver's UpfrontShutdownScript and
    ExtraData are never assigned. *)
Theorem Decode_malformed_key (pver : Z) (a0 : AcceptChannel) (scalars : list byte)
    (keys : list (list byte)) (rest : list byte) :
  length scalars = 72%nat ->
  length keys = 6%nat ->
  Forall (fun k => length k = PubKeyBytesLenCompressed) keys ->
  Exists (fun k => ParsePubKey k = None) keys ->
  fst (Decode pver (State a0 (scalars ++ concat keys ++ rest))) = Err MalformedPublicKey /\
  UpfrontShutdownScript (recv (snd (Decode pver (State a0 (scalars ++ concat keys ++ rest)))))
  = UpfrontShutdownScript a0 /\
  ExtraData (recv (snd (Decode pver (State a0 (scalars ++ concat keys ++ rest)))))
  = ExtraData a0.
Proof.
  intros Hscalars Hkeys Hlen Hbad.
  destruct (Decode_malformed pver a0 scalars keys rest Hscalars Hkeys Hlen Hbad)
    as (s' & -> & Hscript & Hextra).
  auto.
Qed.

(** C9.  [Encode] never mutates its receiver: whatever the message and the
    buffer, and whether [Encode] succeeds or fails, the receiver after the
    call is the receiver before it. *)
Theorem Encode_reads_only (pver : Z) (a : AcceptChannel) (w : list byte) :
  recv (snd (Encode pver (State a w))) = a.
Proof.
  change a with (recv (State a w)) at 2. generalize (State a w). unfold Encode.
  apply bind_keeps_recv; [apply field_keeps_recv | intros addr].
  apply bind_keeps_recv; [apply field_keeps_recv | intros extraData].
  destruct (packShutdownScript addr extraData) as [tlvRecords [e|]]; [reflexivity|].
  repeat (apply bind_keeps_recv;
          [ apply bind_keeps_recv; [apply field_keeps_recv | intros ?];
            first [ apply WriteBytes_keeps_recv | apply WritePublicKey_keeps_recv ]
          | intros _ ]).
  apply WriteBytes_keeps_recv.
Qed.

End Contract.

(** C6.  [packShutdownScript] never fails and always emits the address as a
    TLV record (type id, length, payload), also when the address is
    zero-length, where the record is the two bytes 00 00; it then appends
    the extra data unchanged.  The blob is the record followed by the tail,
    byte for byte, and is never empty. *)
Theorem packShutdownScript_always_emits (addr : DeliveryAddress) (extraData : ExtraOpaqueData) :
  packShutdownScript addr extraData
  = (Some (encode_record (NewRecord addr) ++ contents extraData), None) /\
  encode_record (NewRecord addr)
  = WriteVarInt DeliveryAddrType ++ WriteVarInt (Z.of_nat (len addr)) ++ contents addr /\
  (len addr = 0%nat -> encode_record (NewRecord addr) = [x00; x00]) /\
  (2 <= length (encode_record (NewRecord addr) ++ contents extraData))%nat.
Proof.
  split; [apply packShutdownScript_eq|]. split; [destruct addr; reflexivity|]. split.
  - destruct addr as [[|b l]|]; cbn [len length]; intros H; try discriminate; reflexivity.
  - rewrite length_app. pose proof (encode_record_nonempty (NewRecord addr)). lia.
Qed.

(** C10.  Whenever [parseShutdownScript] returns a non-nil error, its two
    other results are nil: no address and no remainder come with an
    error. *)
Theorem parseShutdownScript_error_results_nil (tlvRecords : ExtraOpaqueData) :
  snd (parseShutdownScript tlvRecords) <> None ->
  fst (fst (parseShutdownScript tlvRecords)) = nil_slice /\
  snd (fst (parseShutdownScript tlvRecords)) = nil_slice.
Proof.
  unfold parseShutdownScript.
  destruct (len tlvRecords =? 0)%nat; [cbn; congruence|].
  destruct (ExtractRecords tlvRecords nil_slice) as [[addr tlvs] [e|]]; [cbn; auto|].
  destruct (tlvs !! DeliveryAddrType); [cbn; congruence | cbn; auto].
Qed.

(** * Runs on concrete messages *)

Lemma G_valid : valid_key Secp256k1.G.
Proof. split; vm_compute; reflexivity. Qed.

Lemma G2_valid : valid_key Secp256k1.G2.
Proof. split; vm_compute; reflexivity. Qed.

Lemma example_message_valid_keys (script : DeliveryAddress) (extra : ExtraOpaqueData) :
  valid_keys (example_message script extra).
Proof.
  unfold valid_keys, example_message, valid_key_field.
  cbn [FundingKey RevocationPoint PaymentPoint DelayedPaymentPoint HtlcPoint
       FirstCommitmentPoint].
  repeat (split; [first [exact G_valid | exact G2_valid]|]). exact G2_valid.
Qed.

Lemma example_message_well_typed (script : DeliveryAddress) (extra : ExtraOpaqueData) :
  well_typed (example_message script extra).
Proof. unfold well_typed. cbn. repeat split; lia. Qed.

Example zero_key_rejected : Secp256k1.parse (replicate 33 x00) = None.
Proof. vm_compute. reflexivity. Qed.

(** The scenario of section 8: the encoding takes the fixed-field total
    plus the two bytes of an explicit empty address record. *)
Example scenario_length :
  length (encoded example_plain) = (32 + 8 + 8 + 8 + 8 + 4 + 2 + 2 + 33 * 6 + 2)%nat.
Proof. vm_compute. reflexivity. Qed.

(** The round trip at [example_full]: a 22-byte script and one unknown
    record of type 1. *)
Lemma Decode_Encode_roundtrip_witness :
  Decode 0 (State empty_message (encoded example_full))
  = (Ok tt,
     State (set_ExtraData (explicit (ExtraData example_full))
              (set_UpfrontShutdownScript (explicit (UpfrontShutdownScript example_full))
                 example_full))
           []) /\
  (UpfrontShutdownScript example_full <> nil_slice -> ExtraData example_full <> nil_slice ->
   Decode 0 (State empty_message (encoded example_full)) = (Ok tt, State example_full [])) /\
  (len (UpfrontShutdownScript example_full) = 0%nat ->
   UpfrontShutdownScript (recv (snd (Decode 0 (State empty_message (encoded example_full)))))
   = Some []).
Proof.
  apply (Decode_Encode_roundtrip 0 empty_message example_full [MakeRecord 1 [xcc]]).
  - apply example_message_well_typed.
  - apply example_message_valid_keys.
  - vm_compute. lia.
  - reflexivity.
  - cbn. unfold MaxRecordSize, DeliveryAddrType. lia.
Defined.

(** C1 as stated fails.  A message with six valid keys that leaves the
    script and the extra data unset (nil) does not decode to itself: both
    come back explicitly empty.  And a message whose extra data is not a
    TLV stream (the single byte 05) is encoded without complaint and
    rejected by [Decode]. *)
Lemma Decode_Encode_absent_fields :
  valid_keys (example_message nil_slice nil_slice) /\
  snd (decoded (encoded (example_message nil_slice nil_slice)))
  = example_message (Some []) (Some []) /\
  snd (decoded (encoded (example_message nil_slice nil_slice)))
  <> example_message nil_slice nil_slice /\
  fst (decoded (encoded (example_message (Some []) (Some [x05]))))
  = Err ErrUnexpectedEOF.
Proof.
  assert (H1 : decoded (encoded (example_message nil_slice nil_slice))
               = (Ok tt, example_message (Some []) (Some []))).
  { unfold decoded.
    rewrite (Decode_encoded 0 empty_message (example_message nil_slice nil_slice) []).
    - reflexivity.
    - apply example_message_well_typed.
    - apply example_message_valid_keys.
    - cbn. lia.
    - reflexivity.
    - exact I. }
  split; [apply example_message_valid_keys|].
  split; [rewrite H1; reflexivity|]. split.
  - rewrite H1. cbn [snd]. intros Heq.
    apply (f_equal UpfrontShutdownScript) in Heq. discriminate Heq.
  - unfold decoded. rewrite encoded_eq by apply example_message_valid_keys.
    rewrite Decode_run by
      first [apply example_message_well_typed | apply example_message_valid_keys].
    reflexivity.
Qed.

(** A blob that starts with a record of type 1. *)
Lemma missing_shutdown_script_record_witness :
  encode_stream [MakeRecord 1 [xcc]] <> [] /\
  parseShutdownScript (Some (encode_stream [MakeRecord 1 [xcc]]))
  = (nil_slice, nil_slice, Some MissingShutdownScriptRecord) /\
  fst (Decode 0 (State empty_message (fixed_fields example_plain ++ encode_stream [MakeRecord 1 [xcc]])))
  = Err MissingShutdownScriptRecord.
Proof.
  apply (missing_shutdown_script_record 0 empty_message example_plain (MakeRecord 1 [xcc]) []).
  - cbn. unfold MaxRecordSize. lia.
  - cbn. unfold DeliveryAddrType. lia.
  - apply example_message_well_typed.
  - apply example_message_valid_keys.
Defined.

(** The wire order at [example_full], into an empty buffer. *)
Lemma Encode_wire_order_witness :
  Encode 0 (State example_full [])
  = (Ok tt,
     State example_full ([] ++
       PendingChannelID example_full ++
       be_bytes 8 (DustLimit example_full) ++
       be_bytes 8 (MaxValueInFlight example_full) ++
       be_bytes 8 (ChannelReserve example_full) ++
       be_bytes 8 (HtlcMinimum example_full) ++
       be_bytes 4 (MinAcceptDepth example_full) ++
       be_bytes 2 (CsvDelay example_full) ++
       be_bytes 2 (MaxAcceptedHTLCs example_full) ++
       SerializeCompressed Secp256k1.G ++
       SerializeCompressed Secp256k1.G2 ++
       SerializeCompressed Secp256k1.G ++
       SerializeCompressed Secp256k1.G2 ++
       SerializeCompressed Secp256k1.G ++
       SerializeCompressed Secp256k1.G2 ++
       contents (fst (packShutdownScript (UpfrontShutdownScript example_full)
                                         (ExtraData example_full))))).
Proof.
  apply (Encode_wire_order 0 example_full []
           Secp256k1.G Secp256k1.G2 Secp256k1.G Secp256k1.G2 Secp256k1.G Secp256k1.G2);
    reflexivity.
Defined.

(** C3 as stated fails.  The scenario message is encoded as its fixed
    fields followed by the two bytes of the TLV blob and nothing else:
    there is no length, of any width, between the last key and the blob. *)
Lemma Encode_blob_not_length_prefixed :
  encoded example_plain = fixed_fields example_plain ++ [x00; x00] /\
  contents (fst (packShutdownScript (UpfrontShutdownScript example_plain)
                                    (ExtraData example_plain)))
  = [x00; x00] /\
  ~ (exists prefix : list byte,
       prefix <> [] /\
       encoded example_plain
       = fixed_fields example_plain ++ prefix ++
         contents (fst (packShutdownScript (UpfrontShutdownScript example_plain)
                                           (ExtraData example_plain)))).
Proof.
  assert (Henc : encoded example_plain = fixed_fields example_plain ++ [x00; x00]).
  { rewrite encoded_eq by apply example_message_valid_keys. reflexivity. }
  split; [exact Henc|]. split; [reflexivity|].
  intros (prefix & Hne & Heq). rewrite Henc in Heq.
  change (contents (fst (packShutdownScript (UpfrontShutdownScript example_plain)
                                            (ExtraData example_plain))))
    with [x00; x00] in Heq.
  apply app_inv_head in Heq. apply (f_equal (@length byte)) in Heq.
  rewrite length_app in Heq. cbn [length] in Heq.
  destruct prefix; [contradiction | cbn [length] in Heq; lia].
Qed.

(** The empty blob, after the fixed fields of the scenario message. *)
Lemma parseShutdownScript_empty_blob_witness :
  parseShutdownScript (Some []) = (nil_slice, Some [], None) /\
  (forall blob addr rest : slice,
     parseShutdownScript blob = (addr, rest, None) -> addr = nil_slice -> len blob = 0%nat) /\
  Decode 0 (State empty_message (fixed_fields example_plain))
  = (Ok tt, State (set_ExtraData (Some []) (set_UpfrontShutdownScript nil_slice example_plain)) []).
Proof.
  apply (parseShutdownScript_empty_blob 0 empty_message example_plain (Some [])).
  - reflexivity.
  - apply example_message_well_typed.
  - apply example_message_valid_keys.
Defined.

(** Input whose second key field is 33 zero bytes. *)
Lemma Decode_malformed_key_witness :
  fst (Decode 0 (State (@empty_message Secp256k1.codec)
         (replicate 72 x00 ++
          concat [Secp256k1.serialize Secp256k1.G; replicate 33 x00;
                  Secp256k1.serialize Secp256k1.G; Secp256k1.serialize Secp256k1.G;
                  Secp256k1.serialize Secp256k1.G; Secp256k1.serialize Secp256k1.G] ++ [])))
  = Err MalformedPublicKey /\
  UpfrontShutdownScript (recv (snd (Decode 0 (State (@empty_message Secp256k1.codec)
         (replicate 72 x00 ++
          concat [Secp256k1.serialize Secp256k1.G; replicate 33 x00;
                  Secp256k1.serialize Secp256k1.G; Secp256k1.serialize Secp256k1.G;
                  Secp256k1.serialize Secp256k1.G; Secp256k1.serialize Secp256k1.G] ++ [])))))
  = UpfrontShutdownScript (@empty_message Secp256k1.codec) /\
  ExtraData (recv (snd (Decode 0 (State (@empty_message Secp256k1.codec)
         (replicate 72 x00 ++
          concat [Secp256k1.serialize Secp256k1.G; replicate 33 x00;
                  Secp256k1.serialize Secp256k1.G; Secp256k1.serialize Secp256k1.G;
                  Secp256k1.serialize Secp256k1.G; Secp256k1.serialize Secp256k1.G] ++ [])))))
  = ExtraData (@empty_message Secp256k1.codec).
Proof.
  apply (@Decode_malformed_key Secp256k1.codec 0 empty_message (replicate 72 x00)
           [Secp256k1.serialize Secp256k1.G; replicate 33 x00;
            Secp256k1.serialize Secp256k1.G; Secp256k1.serialize Secp256k1.G;
            Secp256k1.serialize Secp256k1.G; Secp256k1.serialize Secp256k1.G] []).
  - reflexivity.
  - reflexivity.
  - repeat constructor.
  - apply Exists_cons_tl, Exists_cons_hd. vm_compute. reflexivity.
Defined.

(** A blob without the address record: the error comes with nil results. *)
Lemma parseShutdownScript_error_results_nil_witness :
  fst (fst (parseShutdownScript (Some [x01; x01; xcc]))) = nil_slice /\
  snd (fst (parseShutdownScript (Some [x01; x01; xcc]))) = nil_slice.
Proof.
  apply (parseShutdownScript_error_results_nil (Some [x01; x01; xcc])).
  vm_compute. discriminate.
Defined.

(** C4 at a failing input.  The blob is the address record of the 253-byte
    payload [long_address] followed by one record of type 1.  The record
    spans 1 + 3 + 253 bytes, the code cuts [addrLen + 2] = 255: the
    remainder starts with the last two bytes of the payload instead of
    being the bytes after the record. *)
Theorem parseShutdownScript_long_address :
  length (encode_record (MakeRecord DeliveryAddrType long_address)) = (1 + 3 + 253)%nat /\
  parseShutdownScript
    (Some (encode_record (MakeRecord DeliveryAddrType long_address) ++ [x01; x01; xcc]))
  = (Some long_address, Some ([xaa; xbb] ++ [x01; x01; xcc]), None).
Proof. split; vm_compute; reflexivity. Qed.

(** C5 at a failing input.  Packing the 253-byte address [long_address]
    with a tail of one record of type 1 and parsing the result returns the
    address and, as remainder, the last two address bytes followed by the
    tail, not the tail. *)
Theorem parse_pack_long_address :
  parseShutdownScript (fst (packShutdownScript (Some long_address) (Some [x01; x01; xcc])))
  = (Some long_address, Some ([xaa; xbb] ++ [x01; x01; xcc]), None) /\
  [x01; x01; xcc] = encode_stream [MakeRecord 1 [xcc]].
Proof. split; vm_compute; reflexivity. Qed.

(** * Further properties *)

(** For every address payload shorter than 253 bytes and every tail that
    is a well-formed sequence of records with strictly ascending type
    ids above the address type, parsing what [packShutdownScript] packed
    returns the address and the tail, with no error. *)
Theorem parse_pack_short_address (p : list byte) (recs : list Record) :
  (length p < 253)%nat ->
  canonical (DeliveryAddrType + 1) recs ->
  parseShutdownScript (fst (packShutdownScript (Some p) (Some (encode_stream recs))))
  = (Some p, Some (encode_stream recs), None).
Proof.
  intros Hshort Hc. rewrite packShutdownScript_eq. cbn [fst contents].
  apply parse_address_record_short; assumption.
Qed.

Lemma parse_pack_short_address_witness :
  parseShutdownScript
    (fst (packShutdownScript (Some [xaa; xbb]) (Some (encode_stream [MakeRecord 1 [xcc]]))))
  = (Some [xaa; xbb], Some (encode_stream [MakeRecord 1 [xcc]]), None).
Proof.
  apply (parse_pack_short_address [xaa; xbb] [MakeRecord 1 [xcc]]).
  - cbn. lia.
  - cbn. unfold MaxRecordSize, DeliveryAddrType. lia.
Defined.

(** The slice expression [tlvRecords[addrLen+2:]] of [parseShutdownScript]
    is always in bounds: whenever a non-empty blob is parsed without
    error, the address is non-nil and its length plus two is at most the
    length of the blob. *)
Theorem parseShutdownScript_slice_in_bounds (tlvRecords addr rest : ExtraOpaqueData) :
  len tlvRecords <> 0%nat ->
  parseShutdownScript tlvRecords = (addr, rest, None) ->
  is_Some addr /\ (len addr + 2 <= len tlvRecords)%nat /\
  rest = slice_from tlvRecords (len addr + 2).
Proof.
  intros Hne Hparse.
  destruct (parse_success_address tlvRecords addr rest Hne Hparse) as [Hsome Hlen].
  split; [exact Hsome|]. split; [exact Hlen|].
  unfold parseShutdownScript in Hparse.
  destruct (Nat.eqb_spec (len tlvRecords) 0) as [|_]; [contradiction|].
  destruct (ExtractRecords tlvRecords nil_slice) as [[a tlvs] [e|]]; [discriminate|].
  destruct (tlvs !! DeliveryAddrType); [|discriminate].
  injection Hparse as <- <-. reflexivity.
Qed.

Lemma parseShutdownScript_slice_in_bounds_witness :
  is_Some (Some [xaa; xbb]) /\
  (len (Some [xaa; xbb]) + 2 <= len (Some [x00; x02; xaa; xbb; x01; x01; xcc]))%nat /\
  Some [x01; x01; xcc]
  = slice_from (Some [x00; x02; xaa; xbb; x01; x01; xcc]) (len (Some [xaa; xbb]) + 2).
Proof.
  apply (parseShutdownScript_slice_in_bounds
           (Some [x00; x02; xaa; xbb; x01; x01; xcc]) (Some [xaa; xbb]) (Some [x01; x01; xcc])).
  - cbn. lia.
  - vm_compute. reflexivity.
Defined.

(** * Decoding and encoding, both ways *)

(** ** Big-endian bytes of a decoded value *)

Lemma z2b_add_256 (z c : Z) : z2b (z + c * 256) = z2b z.
Proof. unfold z2b. rewrite Z.mod_add by lia. reflexivity. Qed.

(** Only the [8 * n] low-order bits of a value matter to its bytes. *)
Lemma be_bytes_add (n : nat) :
  forall z c : Z, be_bytes n (z + c * 2 ^ (8 * Z.of_nat n)) = be_bytes n z.
Proof.
  induction n as [|n IH]; intros z c; [reflexivity|].
  cbn [be_bytes].
  replace (8 * Z.of_nat (S n)) with (8 * Z.of_nat n + 8) by lia.
  rewrite Z.pow_add_r by lia. change (2 ^ 8) with 256.
  f_equal.
  - replace (z + c * (2 ^ (8 * Z.of_nat n) * 256))
      with (z + (c * 256) * 2 ^ (8 * Z.of_nat n)) by lia.
    rewrite Z.div_add by (apply Z.pow_nonzero; lia).
    apply z2b_add_256.
  - replace (z + c * (2 ^ (8 * Z.of_nat n) * 256))
      with (z + (c * 256) * 2 ^ (8 * Z.of_nat n)) by lia.
    apply IH.
Qed.

Lemma be_bytes_be_value (bs : list byte) : be_bytes (length bs) (be_value bs) = bs.
Proof.
  induction bs as [|b bs IH]; [reflexivity|].
  cbn [length be_bytes]. rewrite be_value_cons.
  replace (256 ^ Z.of_nat (length bs)) with (2 ^ (8 * Z.of_nat (length bs)))
    by (rewrite Z.pow_mul_r by lia; reflexivity).
  pose proof (be_value_range bs) as Hr.
  replace (256 ^ Z.of_nat (length bs)) with (2 ^ (8 * Z.of_nat (length bs))) in Hr
    by (rewrite Z.pow_mul_r by lia; reflexivity).
  f_equal.
  - rewrite Z.add_comm, Z.div_add by lia.
    rewrite Z.div_small by lia. cbn [Z.add]. apply z2b_b2z.
  - rewrite Z.add_comm, be_bytes_add. exact IH.
Qed.

Lemma be_bytes_be_value' (n : nat) (bs : list byte) :
  length bs = n -> be_bytes n (be_value bs) = bs.
Proof. intros <-. apply be_bytes_be_value. Qed.

Lemma be_bytes_to_int64 (bs : list byte) :
  length bs = 8%nat -> be_bytes 8 (to_int64 (be_value bs)) = bs.
Proof.
  intros Hlen. unfold to_int64.
  destruct (be_value bs <? 2 ^ 63).
  - apply be_bytes_be_value'. exact Hlen.
  - replace (be_value bs - 2 ^ 64) with (be_value bs + (-1) * 2 ^ (8 * Z.of_nat 8)) by lia.
    rewrite be_bytes_add. apply be_bytes_be_value'. exact Hlen.
Qed.

(** ** The varint decoder accepts only what the encoder writes *)

Lemma b2z_inj_const (d : byte) (z : Z) : b2z d = z -> d = z2b z.
Proof. intros <-. symmetry. apply z2b_b2z. Qed.

Lemma ReadVarInt_inv (r r' : list byte) (n : Z) :
  ReadVarInt r = Ok (n, r') -> r = WriteVarInt n ++ r' /\ 0 <= n < 2 ^ 64.
Proof.
  destruct r as [|d r1]; [discriminate|]. cbn [ReadVarInt].
  pose proof (b2z_range d) as Hd.
  assert (Hwide : forall k : nat, (k <= length r1)%nat ->
            be_bytes k (be_value (take k r1)) ++ drop k r1 = r1 /\
            0 <= be_value (take k r1) < 256 ^ Z.of_nat k).
  { intros k Hk. split.
    - rewrite be_bytes_be_value' by (rewrite length_take; lia). apply take_drop.
    - pose proof (be_value_range (take k r1)) as Hr.
      rewrite length_take in Hr. replace (k `min` length r1)%nat with k in Hr by lia.
      exact Hr. }
  destruct (Z.ltb_spec (b2z d) 253) as [Hs|Hs].
  { intros [= <- <-]. unfold WriteVarInt.
    destruct (Z.ltb_spec (b2z d) 253); [|lia].
    rewrite z2b_b2z. split; [reflexivity | lia]. }
  destruct (Z.eqb_spec (b2z d) 253) as [E|E].
  { destruct (Nat.ltb_spec (length r1) 2) as [|Hl]; [discriminate|].
    destruct (Z.ltb_spec (be_value (take 2 r1)) 253) as [|Hc]; [discriminate|].
    intros [= <- <-]. destruct (Hwide 2%nat Hl) as [Heq Hr].
    change (256 ^ Z.of_nat 2) with 65536 in Hr.
    unfold WriteVarInt.
    destruct (Z.ltb_spec (be_value (take 2 r1)) 253); [lia|].
    destruct (Z.leb_spec (be_value (take 2 r1)) 65535); [|lia].
    rewrite (b2z_inj_const d 253 E). cbn [app]. rewrite Heq. split; [reflexivity | lia]. }
  destruct (Z.eqb_spec (b2z d) 254) as [E4|E4].
  { destruct (Nat.ltb_spec (length r1) 4) as [|Hl]; [discriminate|].
    destruct (Z.ltb_spec (be_value (take 4 r1)) 65536) as [|Hc]; [discriminate|].
    intros [= <- <-]. destruct (Hwide 4%nat Hl) as [Heq Hr].
    change (256 ^ Z.of_nat 4) with 4294967296 in Hr.
    unfold WriteVarInt.
    destruct (Z.ltb_spec (be_value (take 4 r1)) 253); [lia|].
    destruct (Z.leb_spec (be_value (take 4 r1)) 65535); [lia|].
    destruct (Z.leb_spec (be_value (take 4 r1)) 4294967295); [|lia].
    rewrite (b2z_inj_const d 254 E4). cbn [app]. rewrite Heq. split; [reflexivity | lia]. }
  destruct (Nat.ltb_spec (length r1) 8) as [|Hl]; [discriminate|].
  destruct (Z.ltb_spec (be_value (take 8 r1)) 4294967296) as [|Hc]; [discriminate|].
  intros [= <- <-]. destruct (Hwide 8%nat Hl) as [Heq Hr].
  change (256 ^ Z.of_nat 8) with (2 ^ 64) in Hr.
  unfold WriteVarInt.
  destruct (Z.ltb_spec (be_value (take 8 r1)) 253); [lia|].
  destruct (Z.leb_spec (be_value (take 8 r1)) 65535); [lia|].
  destruct (Z.leb_spec (be_value (take 8 r1)) 4294967295); [lia|].
  assert (E8 : b2z d = 255) by lia.
  rewrite (b2z_inj_const d 255 E8). cbn [app]. rewrite Heq. split; [reflexivity | lia].
Qed.

(** ** The shape of a blob [parseShutdownScript] accepts *)

(** Past the known type the known entry of the type map is not touched. *)
Lemma decode_past_known_lookup (known : Z) (fuel : nat) :
  forall (min : Z) (r : list byte) (dst dst' : slice) (parsed parsed' : TypeMap),
  known < min ->
  decode fuel known min r dst parsed = (dst', parsed', None) ->
  parsed' !! known = parsed !! known.
Proof.
  induction fuel as [|fuel IH]; intros min r dst dst' parsed parsed' Hpast Hdec;
    [discriminate|].
  cbn [decode] in Hdec.
  destruct (ReadVarInt r) as [[typ r1]|e].
  2:{ destruct e; try discriminate. injection Hdec as <- <-. reflexivity. }
  destruct (Z.ltb_spec typ min) as [|Hmin]; [discriminate|].
  destruct (ReadVarInt r1) as [[size r2]|e].
  2:{ destruct e; discriminate. }
  destruct (MaxRecordSize <? size); [discriminate|].
  destruct (Z.eqb_spec typ known) as [->|Hne]; [lia|].
  destruct (length r2 <? Z.to_nat size)%nat; [discriminate|].
  erewrite IH; [| |exact Hdec]; [|lia].
  apply lookup_insert_ne. exact Hne.
Qed.

(** A non-empty blob that is parsed without error starts with the address
    record; the address is its payload. *)
Lemma parse_success_shape (tlvRecords addr rest : ExtraOpaqueData) :
  len tlvRecords <> 0%nat ->
  parseShutdownScript tlvRecords = (addr, rest, None) ->
  exists (p tail : list byte),
    addr = Some p /\
    contents tlvRecords = encode_record (MakeRecord DeliveryAddrType p) ++ tail /\
    rest = Some (drop (length p + 2) (contents tlvRecords)).
Proof.
  intros Hne. unfold parseShutdownScript.
  destruct (Nat.eqb_spec (len tlvRecords) 0) as [|_]; [contradiction|].
  unfold ExtractRecords. cbn [decode].
  destruct tlvRecords as [blob|]; [|contradiction]. cbn [contents len slice_from] in *.
  destruct (ReadVarInt blob) as [[typ r1]|e] eqn:E1.
  2:{ destruct e; try discriminate; rewrite lookup_empty; discriminate. }
  apply ReadVarInt_inv in E1 as [Hblob Htyp].
  destruct (Z.ltb_spec typ 0) as [|_]; [lia|].
  destruct (ReadVarInt r1) as [[size r2]|e] eqn:E2.
  2:{ destruct e; discriminate. }
  apply ReadVarInt_inv in E2 as [Hr1 Hsize].
  destruct (MaxRecordSize <? size); [discriminate|].
  destruct (Z.eqb_spec typ DeliveryAddrType) as [->|Hother].
  - destruct (Nat.ltb_spec (length r2) (Z.to_nat size)) as [|Hfit]; [discriminate|].
    destruct (decode _ _ _ _ _ _) as [[a tlvs] [e|]] eqn:Hdec; [discriminate|].
    apply decode_past_known in Hdec; [|unfold DeliveryAddrType; lia]. subst a.
    destruct (tlvs !! DeliveryAddrType); [|discriminate].
    intros [= <- <-]. exists (take (Z.to_nat size) r2), (drop (Z.to_nat size) r2).
    split; [reflexivity|]. split; [|cbn [len]; reflexivity].
    unfold encode_record. cbn [rtype rvalue].
    rewrite length_take. replace (Z.to_nat size `min` length r2)%nat with (Z.to_nat size) by lia.
    rewrite Z2Nat.id by lia. rewrite <- !app_assoc, take_drop, <- Hr1. exact Hblob.
  - destruct (Nat.ltb_spec (length r2) (Z.to_nat size)) as [|Hfit]; [discriminate|].
    destruct (decode _ _ _ _ _ _) as [[a tlvs] [e|]] eqn:Hdec; [discriminate|].
    apply decode_past_known_lookup in Hdec; [|unfold DeliveryAddrType in *; lia].
    rewrite Hdec, lookup_insert_ne, lookup_empty by exact Hother. discriminate.
Qed.

(** Packing what was parsed gives the blob back. *)
Lemma pack_parsed (tlvRecords addr rest : ExtraOpaqueData) :
  len tlvRecords <> 0%nat ->
  parseShutdownScript tlvRecords = (addr, rest, None) ->
  (len addr < 253)%nat ->
  packShutdownScript addr rest = (Some (contents tlvRecords), None).
Proof.
  intros Hne Hparse Hshort.
  destruct (parse_success_shape tlvRecords addr rest Hne Hparse) as (p & tail & -> & Hblob & ->).
  cbn [len] in Hshort.
  rewrite packShutdownScript_eq. cbn [contents]. do 2 f_equal.
  rewrite Hblob at 2. change (NewRecord (Some p)) with (MakeRecord DeliveryAddrType p).
  f_equal. rewrite Hblob. unfold encode_record. cbn [rtype rvalue].
  rewrite (WriteVarInt_short (Z.of_nat (length p))) by lia.
  change (WriteVarInt DeliveryAddrType) with [x00]. rewrite <- !app_assoc. cbn [app].
  replace (length p + 2)%nat with (S (S (length p))) by lia. cbn [drop].
  apply drop_app_length.
Qed.

(** ** packShutdownScript is injective *)

(** [packShutdownScript] is injective on the bytes it is given: two
    addresses and tails that pack to the same blob hold the same address
    bytes and the same tail bytes (a nil and an empty slice pack alike).
    The lengths are those of Go slices, below 2^64. *)
Theorem packShutdownScript_injective (addr addr' : DeliveryAddress) (extra extra' : ExtraOpaqueData) :
  Z.of_nat (len addr) < 2 ^ 64 ->
  Z.of_nat (len addr') < 2 ^ 64 ->
  fst (packShutdownScript addr extra) = fst (packShutdownScript addr' extra') ->
  contents addr = contents addr' /\ contents extra = contents extra'.
Proof.
  intros Hl Hl'. rewrite !packShutdownScript_eq. cbn [fst]. intros [= Heq].
  assert (Hc : forall a : slice, length (contents a) = len a) by (intros [|]; reflexivity).
  rewrite <- !app_assoc in Heq.
  assert (Hread := f_equal ReadVarInt Heq).
  rewrite !ReadVarInt_WriteVarInt in Hread by (rewrite Hc; lia).
  injection Hread as Hn Hrest.
  apply app_inj_1 in Hrest; [exact Hrest | lia].
Qed.

(** ** The outcome of Decode *)

Section DecodeOutcome.
Context {KC : KeyCodec}.

Lemma ReadFull_short (n : nat) (s : state) :
  (length (stream s) < n)%nat ->
  exists e : error,
    ReadFull n s = (Err e, State (recv s) []) /\ (e = EOF \/ e = ErrUnexpectedEOF).
Proof.
  intros Hn. unfold ReadFull. destruct (Nat.leb_spec n (length (stream s))); [lia|].
  destruct (stream s); eauto.
Qed.

(** An element is read from exactly [wire_size] bytes, or not at all. *)
Lemma ReadElement_outcome (e : element) (s : state) :
  (exists a' : AcceptChannel,
     (wire_size e <= length (stream s))%nat /\
     ReadElement e s = (Ok tt, State a' (drop (wire_size e) (stream s)))) \/
  (exists (err : error) (s' : state),
     ReadElement e s = (Err err, s') /\
     (err = EOF \/ err = ErrUnexpectedEOF \/ err = MalformedPublicKey)).
Proof.
  destruct (Nat.le_gt_cases (wire_size e) (length (stream s))) as [Hfit|Hshort].
  - destruct e; cbn [wire_size ReadElement] in *; rewrite bind_run, ReadFull_enough by exact Hfit;
      try (left; eexists; split; [exact Hfit | reflexivity]).
    destruct (ParsePubKey _).
    + left. eexists. split; [exact Hfit | reflexivity].
    + right. do 2 eexists. split; [reflexivity | auto].
  - right. destruct (ReadFull_short (wire_size e) s Hshort) as (err & Hread & Herr).
    destruct e; cbn [wire_size ReadElement] in *; rewrite bind_run, Hread;
      do 2 eexists; (split; [reflexivity | tauto]).
Qed.

Lemma ReadElements_outcome (es : list element) :
  forall s : state,
  (exists a' : AcceptChannel,
     (sum_list (wire_size <$> es) <= length (stream s))%nat /\
     ReadElements es s = (Ok tt, State a' (drop (sum_list (wire_size <$> es)) (stream s)))) \/
  (exists (err : error) (s' : state),
     ReadElements es s = (Err err, s') /\
     (err = EOF \/ err = ErrUnexpectedEOF \/ err = MalformedPublicKey)).
Proof.
  induction es as [|e es IH]; intros s.
  - left. exists (recv s). split; [simpl; lia|]. destruct s. reflexivity.
  - destruct (ReadElement_outcome e s) as [(a1 & Hfit & Hread)|(err & s' & Hread & Herr)].
    + rewrite (ReadElements_cons _ _ _ _ Hread).
      destruct (IH (State a1 (drop (wire_size e) (stream s))))
        as [(a2 & Hfit2 & Hrest)|(err & s' & Hrest & Herr)].
      * left. exists a2. cbn [stream] in *. rewrite length_drop in Hfit2.
        assert (Hsum : sum_list (wire_size <$> e :: es)
                       = (wire_size e + sum_list (wire_size <$> es))%nat) by reflexivity.
        rewrite Hsum. split; [lia|].
        rewrite Hrest, drop_drop. reflexivity.
      * right. eauto.
    + right. exists err, s'. split; [|exact Herr].
      apply ReadElements_fail. exact Hread.
Qed.

(** One turn of [ReadElements] at a byte offset of the input. *)
Lemma step_scalar (e : element) (n off : nat)
    (upd : list byte -> AcceptChannel -> AcceptChannel)
    (rest : list element) (a : AcceptChannel) (bs : list byte) :
  (forall s, ReadElement e s = (b ← ReadFull n; store (upd b)) s) ->
  (off + n <= length bs)%nat ->
  ReadElements (e :: rest) (State a (drop off bs))
  = ReadElements rest (State (upd (chunk off n bs) a) (drop (off + n) bs)).
Proof.
  intros He Hfit. apply ReadElements_cons.
  rewrite He, bind_run, ReadFull_enough by (cbn [stream]; rewrite length_drop; lia).
  cbn [stream recv]. rewrite drop_drop. reflexivity.
Qed.

Lemma step_key set (off : nat) (rest : list element) (a : AcceptChannel) (bs : list byte) :
  (off + 33 <= length bs)%nat ->
  ReadElements (PublicKeyPtr set :: rest) (State a (drop off bs))
  = match ParsePubKey (chunk off 33 bs) with
    | Some pub => ReadElements rest (State (set (Some pub) a) (drop (off + 33) bs))
    | None => (Err MalformedPublicKey, State a (drop (off + 33) bs))
    end.
Proof.
  intros Hfit. cbn [ReadElements ReadElement]. rewrite !bind_run.
  rewrite ReadFull_enough by (cbn [stream]; rewrite length_drop; unfold PubKeyBytesLenCompressed; lia).
  cbn [stream recv]. rewrite drop_drop. unfold chunk, PubKeyBytesLenCompressed.
  destruct (ParsePubKey (take 33 (drop off bs))); reflexivity.
Qed.

(** [Decode] on an input that holds the fixed fields at least. *)
Lemma Decode_long (pver : Z) (a0 : AcceptChannel) (bs : list byte) :
  (fixed_length <= length bs)%nat ->
  (Forall (fun k => is_Some (ParsePubKey k)) (key_chunks bs) /\
   Decode pver (State a0 bs)
   = (match snd (parseShutdownScript (Some (drop fixed_length bs))) with
      | Some e => Err e
      | None => Ok tt
      end,
      State (wire_message bs) [])) \/
  (Exists (fun k => ParsePubKey k = None) (key_chunks bs) /\
   fst (Decode pver (State a0 bs)) = Err MalformedPublicKey).
Proof.
  unfold fixed_length. intros Hlen. unfold Decode. rewrite bind_run.
  change (State a0 bs) with (State a0 (drop 0 bs)).
  rewrite (step_scalar _ 32 0 set_PendingChannelID) by (first [reflexivity | lia]).
  rewrite (step_scalar _ 8 _ (fun b => set_DustLimit (to_int64 (be_value b))))
    by (first [reflexivity | cbn; lia]).
  rewrite (step_scalar _ 8 _ (fun b => set_MaxValueInFlight (be_value b)))
    by (first [reflexivity | cbn; lia]).
  rewrite (step_scalar _ 8 _ (fun b => set_ChannelReserve (to_int64 (be_value b))))
    by (first [reflexivity | cbn; lia]).
  rewrite (step_scalar _ 8 _ (fun b => set_HtlcMinimum (be_value b)))
    by (first [reflexivity | cbn; lia]).
  rewrite (step_scalar _ 4 _ (fun b => set_MinAcceptDepth (be_value b)))
    by (first [reflexivity | cbn; lia]).
  rewrite (step_scalar _ 2 _ (fun b => set_CsvDelay (be_value b)))
    by (first [reflexivity | cbn; lia]).
  rewrite (step_scalar _ 2 _ (fun b => set_MaxAcceptedHTLCs (be_value b)))
    by (first [reflexivity | cbn; lia]).
  cbn [Nat.add]. unfold key_chunks.
  rewrite step_key by lia. cbn [Nat.add].
  destruct (ParsePubKey (chunk 72 33 bs)) as [p1|] eqn:E1;
    [|right; split; [apply Exists_cons_hd; exact E1 | reflexivity]].
  rewrite step_key by lia. cbn [Nat.add].
  destruct (ParsePubKey (chunk 105 33 bs)) as [p2|] eqn:E2;
    [|right; split; [do 1 apply Exists_cons_tl; apply Exists_cons_hd; exact E2 | reflexivity]].
  rewrite step_key by lia. cbn [Nat.add].
  destruct (ParsePubKey (chunk 138 33 bs)) as [p3|] eqn:E3;
    [|right; split; [do 2 apply Exists_cons_tl; apply Exists_cons_hd; exact E3 | reflexivity]].
  rewrite step_key by lia. cbn [Nat.add].
  destruct (ParsePubKey (chunk 171 33 bs)) as [p4|] eqn:E4;
    [|right; split; [do 3 apply Exists_cons_tl; apply Exists_cons_hd; exact E4 | reflexivity]].
  rewrite step_key by lia. cbn [Nat.add].
  destruct (ParsePubKey (chunk 204 33 bs)) as [p5|] eqn:E5;
    [|right; split; [do 4 apply Exists_cons_tl; apply Exists_cons_hd; exact E5 | reflexivity]].
  rewrite step_key by lia. cbn [Nat.add].
  destruct (ParsePubKey (chunk 237 33 bs)) as [p6|] eqn:E6;
    [|right; split; [do 5 apply Exists_cons_tl; apply Exists_cons_hd; exact E6 | reflexivity]].
  left. split.
  { repeat constructor; rewrite ?E1, ?E2, ?E3, ?E4, ?E5, ?E6; eauto. }
  cbn [ReadElements]. unfold mret, M_ret. rewrite bind_run.
  unfold ReadExtraOpaqueData. cbn [stream recv].
  unfold wire_message, fixed_length. rewrite E1, E2, E3, E4, E5, E6.
  destruct (parseShutdownScript (Some (drop 270 bs))) as [[addr extra] err].
  rewrite !bind_run. cbn [fst snd store recv stream].
  destruct err; reflexivity.
Qed.

(** [Decode] on an input shorter than the fixed fields. *)
Lemma Decode_short (pver : Z) (a0 : AcceptChannel) (bs : list byte) :
  (length bs < fixed_length)%nat ->
  exists e : error,
    fst (Decode pver (State a0 bs)) = Err e /\
    (e = EOF \/ e = ErrUnexpectedEOF \/ e = MalformedPublicKey).
Proof.
  unfold fixed_length. intros Hshort. unfold Decode. rewrite bind_run.
  match goal with |- context [ReadElements ?es ?s] =>
    destruct (ReadElements_outcome es s) as [(a' & Hfit & _)|(err & s' & -> & Herr)]
  end.
  - exfalso. cbn in Hfit. lia.
  - exists err. split; [reflexivity | exact Herr].
Qed.

End DecodeOutcome.

Section Reencode.
Context {KC : KeyCodec}.

Lemma chunk_length (off n : nat) (bs : list byte) :
  (off + n <= length bs)%nat -> length (chunk off n bs) = n.
Proof. intros H. unfold chunk. rewrite length_take, length_drop. lia. Qed.

Lemma chunk_next (off n m : nat) (bs : list byte) :
  chunk off n bs ++ take m (drop (off + n) bs) = take (n + m) (drop off bs).
Proof. unfold chunk. rewrite <- drop_drop. apply take_take_drop. Qed.

(** The fourteen fixed fields make up the first 270 bytes. *)
Lemma chunks_fixed (bs : list byte) :
  chunk 0 32 bs ++ chunk 32 8 bs ++ chunk 40 8 bs ++ chunk 48 8 bs ++ chunk 56 8 bs ++
  chunk 64 4 bs ++ chunk 68 2 bs ++ chunk 70 2 bs ++
  chunk 72 33 bs ++ chunk 105 33 bs ++ chunk 138 33 bs ++
  chunk 171 33 bs ++ chunk 204 33 bs ++ chunk 237 33 bs
  = take fixed_length bs.
Proof.
  unfold chunk at 14.
  rewrite (chunk_next 204 33 33), (chunk_next 171 33 66), (chunk_next 138 33 99),
    (chunk_next 105 33 132), (chunk_next 72 33 165), (chunk_next 70 2 198),
    (chunk_next 68 2 200), (chunk_next 64 4 202), (chunk_next 56 8 206),
    (chunk_next 48 8 214), (chunk_next 40 8 222), (chunk_next 32 8 230),
    (chunk_next 0 32 238).
  reflexivity.
Qed.

(** Writing the fixed fields of a decoded message gives back the bytes
    they were read from. *)
Lemma fixed_fields_wire_message (bs : list byte) :
  canonical_keys ->
  (fixed_length <= length bs)%nat ->
  Forall (fun k => is_Some (ParsePubKey k)) (key_chunks bs) ->
  fixed_fields (wire_message bs) = take fixed_length bs.
Proof.
  unfold fixed_length. intros Hcanon Hlen Hkeys. rewrite <- chunks_fixed.
  unfold fixed_fields, wire_message.
  cbn [PendingChannelID DustLimit MaxValueInFlight ChannelReserve HtlcMinimum MinAcceptDepth
       CsvDelay MaxAcceptedHTLCs FundingKey RevocationPoint PaymentPoint DelayedPaymentPoint
       HtlcPoint FirstCommitmentPoint].
  assert (Hkey : forall off, (off + 33 <= length bs)%nat ->
            is_Some (ParsePubKey (chunk off 33 bs)) ->
            key_bytes (ParsePubKey (chunk off 33 bs)) = chunk off 33 bs).
  { intros off Hfit [pub Hpub]. rewrite Hpub. cbn [key_bytes].
    apply Hcanon; [apply chunk_length; exact Hfit | exact Hpub]. }
  unfold key_chunks in Hkeys.
  repeat match goal with
  | H : Forall _ (_ :: _) |- _ => apply Forall_cons in H as [? H]
  end.
  rewrite !Hkey by (lia || assumption).
  rewrite !be_bytes_to_int64 by (apply chunk_length; lia).
  rewrite !(be_bytes_be_value' 8) by (apply chunk_length; lia).
  rewrite (be_bytes_be_value' 4) by (apply chunk_length; lia).
  rewrite !(be_bytes_be_value' 2) by (apply chunk_length; lia).
  reflexivity.
Qed.

Lemma wire_message_keys (bs : list byte) :
  Forall (fun k => is_Some (ParsePubKey k)) (key_chunks bs) ->
  FundingKey (wire_message bs) <> None /\ RevocationPoint (wire_message bs) <> None /\
  PaymentPoint (wire_message bs) <> None /\ DelayedPaymentPoint (wire_message bs) <> None /\
  HtlcPoint (wire_message bs) <> None /\ FirstCommitmentPoint (wire_message bs) <> None.
Proof.
  unfold key_chunks. intros Hkeys.
  repeat match goal with
  | H : Forall _ (_ :: _) |- _ => apply Forall_cons in H as [[? ?] H]
  end.
  cbn [wire_message FundingKey RevocationPoint PaymentPoint DelayedPaymentPoint HtlcPoint
       FirstCommitmentPoint].
  repeat split; congruence.
Qed.

Lemma keys_some_not_none (ks : list (list byte)) :
  Forall (fun k => is_Some (ParsePubKey k)) ks ->
  Exists (fun k => ParsePubKey k = None) ks -> False.
Proof.
  intros HF HE. apply Exists_exists in HE as (k & Hin & Hnone).
  rewrite Forall_forall in HF. destruct (HF k Hin) as [pub Hpub]. congruence.
Qed.

(** Success of [Decode], read off the input. *)
Lemma Decode_success (pver : Z) (a0 : AcceptChannel) (bs : list byte) (s : state) :
  Decode pver (State a0 bs) = (Ok tt, s) ->
  (fixed_length <= length bs)%nat /\
  Forall (fun k => is_Some (ParsePubKey k)) (key_chunks bs) /\
  snd (parseShutdownScript (Some (drop fixed_length bs))) = None /\
  s = State (wire_message bs) [].
Proof.
  intros Hdec.
  destruct (Nat.le_gt_cases fixed_length (length bs)) as [Hlen|Hshort].
  - destruct (Decode_long pver a0 bs Hlen) as [[Hkeys Hrun]|[_ Hbad]].
    + rewrite Hrun in Hdec.
      destruct (snd (parseShutdownScript (Some (drop fixed_length bs)))); [discriminate|].
      injection Hdec as <-. auto.
    + rewrite Hdec in Hbad. discriminate.
  - destruct (Decode_short pver a0 bs Hshort) as (e & He & _).
    rewrite Hdec in He. discriminate.
Qed.

Lemma parse_error_results (tlvRecords : ExtraOpaqueData) (e : error) :
  snd (parseShutdownScript tlvRecords) = Some e ->
  parseShutdownScript tlvRecords = (nil_slice, nil_slice, Some e).
Proof.
  unfold parseShutdownScript.
  destruct (len tlvRecords =? 0)%nat; [discriminate|].
  destruct (ExtractRecords tlvRecords nil_slice) as [[addr tlvs] [e'|]]; [cbn; congruence|].
  destruct (tlvs !! DeliveryAddrType); [discriminate | cbn; congruence].
Qed.

Lemma ReadElement_indep (e : element) (a a' : AcceptChannel) (bs : list byte) :
  fst (ReadElement e (State a bs)) = fst (ReadElement e (State a' bs)) /\
  stream (snd (ReadElement e (State a bs))) = stream (snd (ReadElement e (State a' bs))).
Proof.
  destruct e; cbn [ReadElement]; rewrite !bind_run; unfold ReadFull; cbn [stream recv];
    match goal with |- context [(?n <=? ?l)%nat] => destruct (n <=? l)%nat end;
    try (split; reflexivity).
  destruct (ParsePubKey _); split; reflexivity.
Qed.

Lemma ReadElements_indep (es : list element) :
  forall (a a' : AcceptChannel) (bs : list byte),
  fst (ReadElements es (State a bs)) = fst (ReadElements es (State a' bs)) /\
  stream (snd (ReadElements es (State a bs))) = stream (snd (ReadElements es (State a' bs))).
Proof.
  induction es as [|e es IH]; intros a a' bs; [split; reflexivity|].
  cbn [ReadElements]. rewrite !bind_run.
  destruct (ReadElement_indep e a a' bs) as [Hres Hstream].
  destruct (ReadElement e (State a bs)) as [[[]|err] [a1 bs1]];
    destruct (ReadElement e (State a' bs)) as [[[]|err'] [a1' bs1']];
    cbn [fst snd stream] in Hres, Hstream; try discriminate; subst.
  - apply IH.
  - injection Hres as <-. split; reflexivity.
Qed.

End Reencode.

(** ** The outcome of Encode *)

Section EncodeOutcome.
Context {KC : KeyCodec}.

Lemma appends_bind {A B : Type} (m : M A) (f : A -> M B) :
  appends m -> (forall x, appends (f x)) -> appends (m ≫= f).
Proof.
  intros Hm Hf a w. rewrite !bind_run, (Hm a w).
  destruct (m (State a [])) as [[x|e] [a1 out]] eqn:Hrun.
  - pose proof (Hm a []) as H0. rewrite Hrun in H0. cbn [fst snd stream app] in *.
    injection H0 as ->. rewrite (Hf x a (w ++ out)), (Hf x a out).
    cbn [fst snd stream]. rewrite app_assoc. reflexivity.
  - pose proof (Hm a []) as H0. rewrite Hrun in H0. cbn [fst snd stream app] in *.
    injection H0 as ->. reflexivity.
Qed.

Lemma appends_field {A : Type} (f : AcceptChannel -> A) : appends (field f).
Proof. intros a w. unfold field. cbn. rewrite app_nil_r. reflexivity. Qed.

Lemma appends_fail {A : Type} (e : error) : appends (@fail KC A e).
Proof. intros a w. unfold fail. cbn. rewrite app_nil_r. reflexivity. Qed.

Lemma appends_WriteBytes (b : list byte) : appends (WriteBytes b).
Proof. intros a w. reflexivity. Qed.

Lemma appends_WritePublicKey (pub : option PublicKey) : appends (WritePublicKey pub).
Proof. destruct pub; [apply appends_WriteBytes | apply appends_fail]. Qed.

Lemma appends_Encode (pver : Z) : appends (Encode pver).
Proof.
  unfold Encode.
  apply appends_bind; [apply appends_field | intros addr].
  apply appends_bind; [apply appends_field | intros extraData].
  destruct (packShutdownScript addr extraData) as [tlvRecords [e|]]; [apply appends_fail|].
  repeat (apply appends_bind;
          [ apply appends_bind; [apply appends_field | intros ?];
            first [ apply appends_WriteBytes | apply appends_WritePublicKey ]
          | intros _ ]).
  apply appends_WriteBytes.
Qed.

Lemma write_nil_key (f : AcceptChannel -> option PublicKey) (k : M unit) (s : state) :
  f (recv s) = None ->
  ((field f ≫= WritePublicKey);; k) s = (Err ErrNilPublicKey, s).
Proof.
  intros Hnil. rewrite bind_run. unfold field at 1. rewrite bind_run. cbn [recv].
  rewrite Hnil. reflexivity.
Qed.

(** The next key is nil: [Encode] stops here.  The next key is set: on to
    the field after it. *)
Ltac stop_here E :=
  rewrite write_nil_key by exact E; eexists; split; [reflexivity|];
  rewrite ?E; eexists; rewrite <- !app_assoc; cbn [app key_bytes]; reflexivity.

Ltac go_on E :=
  erewrite write_field; [| apply WritePublicKey_run; exact E]; cbn [recv stream]; rewrite ?E.

(** [Encode] into the empty buffer when a key is nil. *)
Lemma Encode_nil (pver : Z) (a : AcceptChannel) :
  FundingKey a = None \/ RevocationPoint a = None \/ PaymentPoint a = None \/
  DelayedPaymentPoint a = None \/ HtlcPoint a = None \/ FirstCommitmentPoint a = None ->
  exists out : list byte,
    Encode pver (State a []) = (Err ErrNilPublicKey, State a out) /\
    out `prefix_of` fixed_fields a.
Proof.
  intros Hnil. unfold Encode, fixed_fields.
  rewrite bind_run. unfold field at 1. rewrite bind_run. unfold field at 1.
  cbn [recv stream]. rewrite packShutdownScript_eq.
  do 8 (erewrite write_field; [| reflexivity]; cbn [recv stream]).
  destruct (FundingKey a) as [k1|] eqn:E1; [go_on E1 | stop_here E1].
  destruct (RevocationPoint a) as [k2|] eqn:E2; [go_on E2 | stop_here E2].
  destruct (PaymentPoint a) as [k3|] eqn:E3; [go_on E3 | stop_here E3].
  destruct (DelayedPaymentPoint a) as [k4|] eqn:E4; [go_on E4 | stop_here E4].
  destruct (HtlcPoint a) as [k5|] eqn:E5; [go_on E5 | stop_here E5].
  destruct (FirstCommitmentPoint a) as [k6|] eqn:E6; [|stop_here E6].
  exfalso. intuition discriminate.
Qed.

End EncodeOutcome.

(** ** Properties *)

Section More.
Context {KC : KeyCodec}.

(** [Decode] succeeds exactly when the input holds the 270 bytes of the
    fixed fields at least, each of the six 33-byte key fields is accepted
    by the key parser, and [parseShutdownScript] accepts the rest of the
    input as the TLV blob.  The receiver is then [wire_message] of the
    input, a function of the bytes alone, and the input is used up. *)
Theorem Decode_succeeds_iff (pver : Z) (a0 : AcceptChannel) (bs : list byte) (s : state) :
  Decode pver (State a0 bs) = (Ok tt, s) <->
  (fixed_length <= length bs)%nat /\
  Forall (fun k => is_Some (ParsePubKey k)) (key_chunks bs) /\
  snd (parseShutdownScript (Some (drop fixed_length bs))) = None /\
  s = State (wire_message bs) [].
Proof.
  split; [apply Decode_success|].
  intros (Hlen & Hkeys & Htlv & ->).
  destruct (Decode_long pver a0 bs Hlen) as [[_ Hrun]|[Hbad _]].
  - rewrite Hrun, Htlv. reflexivity.
  - destruct (keys_some_not_none _ Hkeys Hbad).
Qed.


(** The result of [Decode] depends on the input only, not on what the
    receiver held; and when [Decode] succeeds, so does the receiver it
    leaves: every field is overwritten. *)
Theorem Decode_receiver_independent (pver : Z) (a0 a1 : AcceptChannel) (bs : list byte) :
  fst (Decode pver (State a0 bs)) = fst (Decode pver (State a1 bs)) /\
  (fst (Decode pver (State a0 bs)) = Ok tt ->
   Decode pver (State a0 bs) = Decode pver (State a1 bs)).
Proof.
  assert (Hres : fst (Decode pver (State a0 bs)) = fst (Decode pver (State a1 bs))).
  { unfold Decode. rewrite !bind_run.
    match goal with |- context [ReadElements ?es (State a0 bs)] =>
      destruct (ReadElements_indep es a0 a1 bs) as [Hr Hs];
      destruct (ReadElements es (State a0 bs)) as [[[]|e0] [b0 r0]];
      destruct (ReadElements es (State a1 bs)) as [[[]|e1] [b1 r1]]
    end; cbn [fst snd stream] in Hr, Hs; try discriminate; subst; [|exact Hr].
    unfold ReadExtraOpaqueData. rewrite !bind_run. cbn [stream recv].
    destruct (parseShutdownScript (Some r1)) as [[addr extra] [e|]]; reflexivity. }
  split; [exact Hres|]. intros Hok.
  destruct (Decode pver (State a0 bs)) as [r0 s0] eqn:H0.
  destruct (Decode pver (State a1 bs)) as [r1 s1] eqn:H1.
  cbn [fst] in Hres, Hok. rewrite Hok in Hres, H0. rewrite <- Hres in H1.
  apply Decode_success in H0 as (_ & _ & _ & ->).
  apply Decode_success in H1 as (_ & _ & _ & ->).
  rewrite Hok, <- Hres. reflexivity.
Qed.

(** When [parseShutdownScript] rejects the TLV blob that follows the fixed
    fields of a message, [Decode] fails with its error, after it has
    assigned the fourteen fixed fields and has set UpfrontShutdownScript
    and ExtraData to nil, whatever the receiver held there: the results of
    [parseShutdownScript] are assigned before the error is looked at. *)
Theorem Decode_rejected_blob (pver : Z) (a0 m : AcceptChannel) (blob : list byte) (e : error) :
  well_typed m ->
  valid_keys m ->
  snd (parseShutdownScript (Some blob)) = Some e ->
  Decode pver (State a0 (fixed_fields m ++ blob))
  = (Err e, State (set_ExtraData nil_slice (set_UpfrontShutdownScript nil_slice m)) []).
Proof.
  intros Hwt Hkeys Herr. rewrite Decode_run by assumption.
  rewrite (parse_error_results _ _ Herr). reflexivity.
Qed.

(** Encoding a decoded message gives the input back.  If [Decode] accepts
    an input, the script it reads is shorter than 253 bytes and the key
    parser accepts only the compressed form the serializer writes, then
    [Encode] of the decoded message writes the input byte for byte when
    the input has a TLV blob, and the input followed by the empty address
    record 00 00 when it has none. *)
Theorem Encode_decoded (pver : Z) (a0 : AcceptChannel) (bs : list byte) (s : state) :
  canonical_keys ->
  Decode pver (State a0 bs) = (Ok tt, s) ->
  (len (UpfrontShutdownScript (recv s)) < 253)%nat ->
  (length bs <> fixed_length -> encoded (recv s) = bs) /\
  (length bs = fixed_length -> encoded (recv s) = bs ++ [x00; x00]).
Proof.
  intros Hcanon Hdec Hshort.
  apply Decode_success in Hdec as (Hlen & Hkeys & Htlv & ->). cbn [recv] in *.
  assert (Henc : encoded (wire_message bs)
                 = take fixed_length bs ++
                   encode_record (NewRecord (UpfrontShutdownScript (wire_message bs))) ++
                   contents (ExtraData (wire_message bs))).
  { unfold encoded. destruct (wire_message_keys bs Hkeys) as (K1 & K2 & K3 & K4 & K5 & K6).
    rewrite Encode_run by assumption. cbn [snd stream app].
    rewrite fixed_fields_wire_message by assumption. reflexivity. }
  rewrite Henc.
  cbn [wire_message UpfrontShutdownScript ExtraData] in *.
  destruct (parseShutdownScript (Some (drop fixed_length bs))) as [[addr extra] err] eqn:Hparse.
  cbn [fst snd] in *. subst err.
  split; intros Hl.
  - assert (Hne : len (Some (drop fixed_length bs)) <> 0%nat).
    { cbn [len]. rewrite length_drop. lia. }
    pose proof (pack_parsed _ _ _ Hne Hparse Hshort) as Hpack.
    rewrite packShutdownScript_eq in Hpack. cbn [contents] in Hpack.
    assert (Heq : encode_record (NewRecord addr) ++ contents extra = drop fixed_length bs)
      by congruence.
    rewrite Heq. apply take_drop.
  - assert (Hempty : drop fixed_length bs = []).
    { apply drop_ge. lia. }
    rewrite Hempty in Hparse. cbn in Hparse. injection Hparse as <- <-.
    rewrite take_ge by lia. reflexivity.
Qed.

(** [Encode] only appends: what the buffer held stays in front, and the
    result and the bytes appended are those of encoding into an empty
    buffer. *)
Theorem Encode_appends (pver : Z) (a : AcceptChannel) (w : list byte) :
  Encode pver (State a w) = (fst (Encode pver (State a [])), State a (w ++ encoded a)).
Proof. apply (appends_Encode pver a w). Qed.

(** When one of the six keys is nil, [Encode] fails with
    [ErrNilPublicKey]; what it has appended by then is a prefix of the
    fixed fields, the fields before the first nil key: the TLV blob is
    not written. *)
Theorem Encode_nil_key (pver : Z) (a : AcceptChannel) (w : list byte) :
  FundingKey a = None \/ RevocationPoint a = None \/ PaymentPoint a = None \/
  DelayedPaymentPoint a = None \/ HtlcPoint a = None \/ FirstCommitmentPoint a = None ->
  fst (Encode pver (State a w)) = Err ErrNilPublicKey /\
  stream (snd (Encode pver (State a w))) = w ++ encoded a /\
  encoded a `prefix_of` fixed_fields a.
Proof.
  intros Hnil. destruct (Encode_nil pver a Hnil) as (out & Hrun & Hprefix).
  rewrite (appends_Encode pver a w), Hrun. cbn [fst snd stream].
  assert (Hout : encoded a = out).
  { unfold encoded. change (Encode 0) with (Encode pver). rewrite Hrun. reflexivity. }
  rewrite Hout. auto.
Qed.

End More.

(** Packing what [parseShutdownScript] returned for a non-empty blob gives
    the blob back, for an address shorter than 253 bytes. *)
Theorem pack_parsed_blob (tlvRecords addr rest : ExtraOpaqueData) :
  len tlvRecords <> 0%nat ->
  parseShutdownScript tlvRecords = (addr, rest, None) ->
  (len addr < 253)%nat ->
  packShutdownScript addr rest = (Some (contents tlvRecords), None).
Proof. apply pack_parsed. Qed.

Lemma pack_parsed_blob_witness :
  packShutdownScript (Some [xaa; xbb]) (Some [x01; x01; xcc])
  = (Some (contents (Some [x00; x02; xaa; xbb; x01; x01; xcc])), None).
Proof.
  apply (pack_parsed_blob (Some [x00; x02; xaa; xbb; x01; x01; xcc])
           (Some [xaa; xbb]) (Some [x01; x01; xcc])).
  - cbn. lia.
  - vm_compute. reflexivity.
  - cbn. lia.
Defined.

Lemma packShutdownScript_injective_witness :
  contents nil_slice = contents (Some []) /\ contents (Some [xcc]) = contents (Some [xcc]).
Proof.
  apply (packShutdownScript_injective nil_slice (Some []) (Some [xcc]) (Some [xcc])).
  - cbn. lia.
  - cbn. lia.
  - reflexivity.
Defined.

(** The secp256k1 codec accepts only the compressed form it writes. *)
Lemma decompressPoint_parity (x : Z) (ybit : bool) (y : Z) :
  Secp256k1.decompressPoint x ybit = Some y -> Z.odd y = ybit.
Proof.
  unfold Secp256k1.decompressPoint.
  set (y1 := if Bool.eqb ybit _ then _ else _).
  destruct (negb (_ =? _)); [discriminate|].
  destruct (Bool.eqb ybit (Z.odd y1)) eqn:E; [|discriminate].
  intros [= <-]. symmetry. apply Bool.eqb_prop. exact E.
Qed.

Lemma secp256k1_canonical : @canonical_keys Secp256k1.codec.
Proof.
  intros k [x y] Hlen. cbn [ParsePubKey SerializeCompressed Secp256k1.codec].
  unfold Secp256k1.parse, Secp256k1.serialize.
  destruct k as [|format xs]; [discriminate|].
  destruct (Nat.eqb_spec (length xs) 32) as [Hxs|]; [|discriminate]. cbn [negb].
  destruct (Z.eqb_spec (b2z format) 2) as [E2|N2];
    [|destruct (Z.eqb_spec (b2z format) 3) as [E3|N3]]; cbn [orb negb]; try discriminate.
  - destruct (Secp256k1.decompressPoint _ _) as [y'|] eqn:Hy; [|discriminate].
    destruct (Secp256k1.P <=? _); [discriminate|]. intros [= <- <-].
    apply decompressPoint_parity in Hy. cbn [Secp256k1.X Secp256k1.Y].
    rewrite Hy, E2. cbn [Z.odd]. rewrite <- Hxs, be_bytes_be_value.
    f_equal. symmetry. apply (b2z_inj_const format 2 E2).
  - destruct (Secp256k1.decompressPoint _ _) as [y'|] eqn:Hy; [|discriminate].
    destruct (Secp256k1.P <=? _); [discriminate|]. intros [= <- <-].
    apply decompressPoint_parity in Hy. cbn [Secp256k1.X Secp256k1.Y].
    rewrite Hy, E3. cbn [Z.odd]. rewrite <- Hxs, be_bytes_be_value.
    f_equal. symmetry. apply (b2z_inj_const format 3 E3).
Qed.


Lemma Decode_rejected_blob_witness :
  Decode 0 (State empty_message (fixed_fields example_plain ++ [x01; x05; xcc]))
  = (Err ErrUnexpectedEOF,
     State (set_ExtraData nil_slice (set_UpfrontShutdownScript nil_slice example_plain)) []).
Proof.
  apply (Decode_rejected_blob 0 empty_message example_plain [x01; x05; xcc] ErrUnexpectedEOF).
  - apply example_message_well_typed.
  - apply example_message_valid_keys.
  - vm_compute. reflexivity.
Defined.

Lemma Encode_decoded_witness :
  (length (encoded example_full) <> fixed_length ->
   encoded (recv (State (set_ExtraData (explicit (ExtraData example_full))
                           (set_UpfrontShutdownScript
                              (explicit (UpfrontShutdownScript example_full)) example_full)) []))
   = encoded example_full) /\
  (length (encoded example_full) = fixed_length ->
   encoded (recv (State (set_ExtraData (explicit (ExtraData example_full))
                           (set_UpfrontShutdownScript
                              (explicit (UpfrontShutdownScript example_full)) example_full)) []))
   = encoded example_full ++ [x00; x00]).
Proof.
  apply (Encode_decoded 0 empty_message (encoded example_full)
           (State (set_ExtraData (explicit (ExtraData example_full))
                     (set_UpfrontShutdownScript
                        (explicit (UpfrontShutdownScript example_full)) example_full)) [])).
  - exact secp256k1_canonical.
  - apply (Decode_encoded 0 empty_message example_full [MakeRecord 1 [xcc]]).
    + apply example_message_well_typed.
    + apply example_message_valid_keys.
    + vm_compute. lia.
    + reflexivity.
    + cbn. unfold MaxRecordSize, DeliveryAddrType. lia.
  - vm_compute. lia.
Defined.

Lemma Encode_nil_key_witness :
  fst (Encode 0 (State (@empty_message Secp256k1.codec) [x01])) = Err ErrNilPublicKey /\
  stream (snd (Encode 0 (State (@empty_message Secp256k1.codec) [x01])))
  = [x01] ++ encoded (@empty_message Secp256k1.codec) /\
  encoded (@empty_message Secp256k1.codec) `prefix_of` fixed_fields (@empty_message Secp256k1.codec).
Proof.
  apply (@Encode_nil_key Secp256k1.codec 0 empty_message [x01]).
  left. reflexivity.
Defined.
